(** * Arrangement explorer: rule evaluation, version graph and comparison

    A shallow embedding of the logic layer of the architecture explorer:
    [evaluateRule] and [getEvaluatedRules] (the rule evaluation engine), the
    four state handlers of the [App] component ([handleFork],
    [handleToggleService], [handleUpdateHypothesis], [handleCycleStatus]) and
    the service diff and rule lists computed by [ComparisonView]; then what
    the interface derives from them: the inspector data
    ([getActiveEntityData]), the palette marker ([isActive]), the selector of
    the comparison, and the nodes, links and text marks that [GraphCanvas]
    hands to d3.  The force layout, the DOM and the styling are left out.

    Modelling conventions.
    - A JavaScript string is the [string] of the bytes of its UTF-8
      encoding, which is also what a string literal of this file denotes.
      On well-formed texts [===] and [includes] are equality and substring
      search on the encodings (UTF-8 is self-synchronising).
    - [String.prototype.toLowerCase] is a built-in of the language.  It
      folds the letters of every script, and not character by character
      (a capital sigma at the end of a word becomes a final sigma), so it is
      not defined here: the engine is parameterised by it, through the class
      [Js.LowerCase], with the one law the development needs, its value on
      ASCII text ([Js.asciiLowerCase]).
    - An array is a [list]; [filter], [map], [some] and [find] are
      [List.filter], [map], [existsb] and [List.find].  A [Set] of ids is a
      [gset string].
    - Objects are records.  No handler assigns to a field of an existing
      object: each one builds new objects with spread syntax, [map] and
      [filter], so an object is modelled by its value.
    - The React state read and written by the handlers is the record
      [AppState]; a handler is a function from the state to the next state.
      [handleFork] reads [Date.now()] three times; each reading is an input.
    - [arrangements.find(...)!] may be [undefined]; reading a property of it
      raises a [TypeError], modelled by [None].  [App] reads the rules of the
      active arrangement while it renders, so its handlers exist only in
      states whose active id names an arrangement. *)

From stdpp Require Import base list strings gmap pretty.
From Stdlib Require Import Ascii.

(** ** Strings *)

Module Js.

(** Lower-casing of ASCII text: 'A'..'Z' are moved to 'a'..'z', every other
    character is kept. *)
Definition asciiLower (c : ascii) : ascii :=
  let n := nat_of_ascii c in
  if (65 <=? n)%nat && (n <=? 90)%nat then ascii_of_nat (n + 32) else c.

Fixpoint asciiLowerCase (s : string) : string :=
  match s with
  | EmptyString => EmptyString
  | String c s' => String (asciiLower c) (asciiLowerCase s')
  end.

(** The texts all of whose characters are ASCII (code below 128). *)
Fixpoint IsAscii (s : string) : Prop :=
  match s with
  | EmptyString => True
  | String c s' => (nat_of_ascii c < 128)%nat ∧ IsAscii s'
  end.

(** [s.toLowerCase()], the built-in of the language.  Outside ASCII nothing
    is assumed of it. *)
Class LowerCase := {
  toLowerCase : string → string;
  toLowerCase_ascii : ∀ s, IsAscii s → toLowerCase s = asciiLowerCase s
}.

(** The implementation used to evaluate the engine on ASCII inputs, where
    every implementation has the same values. *)
Definition asciiOnly : LowerCase :=
  {| toLowerCase := asciiLowerCase;
     toLowerCase_ascii := fun s _ => eq_refl |}.

(** [s.startsWith(t)]. *)
Fixpoint startsWith (s t : string) {struct t} : bool :=
  match t with
  | EmptyString => true
  | String b t' =>
      match s with
      | EmptyString => false
      | String a s' => Ascii.eqb a b && startsWith s' t'
      end
  end.

(** [s.includes(t)]: [t] occurs in [s] at some position. *)
Fixpoint includes (s t : string) : bool :=
  startsWith s t ||
  match s with
  | EmptyString => false
  | String _ s' => includes s' t
  end.

End Js.

(** ** Entity model (types.ts) *)

Module ValidationStatus.
Inductive t := VALIDATED | UNCERTAIN | CONFLICT.
#[global] Instance eq_dec : EqDecision t.
Proof. solve_decision. Defined.
End ValidationStatus.

Module RuleStatus.
Inductive t := SATISFIED | VIOLATED | NOT_EVALUABLE.
#[global] Instance eq_dec : EqDecision t.
Proof. solve_decision. Defined.
End RuleStatus.

Module ServiceType.
Inductive t := DATABASE | API | QUEUE | AUTH.
#[global] Instance eq_dec : EqDecision t.
Proof. solve_decision. Defined.
End ServiceType.

Module EntityType.
Inductive t := CONTAINER | SERVICE.
#[global] Instance eq_dec : EqDecision t.
Proof. solve_decision. Defined.
End EntityType.

Module Severity.
Inductive t := CRITICAL | WARNING.
#[global] Instance eq_dec : EqDecision t.
Proof. solve_decision. Defined.
End Severity.

Module Rule.
Record t := mk {
  id : string;
  description : string;
  severity : Severity.t;
  matcher : string
}.
End Rule.

Module EvaluatedRule.
Record t := mk {
  id : string;
  description : string;
  severity : Severity.t;
  matcher : string;
  status : RuleStatus.t;
  matchingServices : list string
}.
End EvaluatedRule.

Module ExternalService.
Record t := mk {
  id : string;
  name : string;
  type : ServiceType.t;
  contractMetrics : list string;
  isExperimental : bool;
  evaluationStatus : ValidationStatus.t
}.
End ExternalService.

Module ContainerVersion.
Record t := mk {
  id : string;
  versionLabel : string;
  hypothesis : string;
  activeRules : list Rule.t
}.
End ContainerVersion.

Module Arrangement.
Record t := mk {
  id : string;
  name : string;
  container : ContainerVersion.t;
  services : list ExternalService.t;
  parentId : option string;
  createdAt : N
}.
End Arrangement.

(** ** Rule evaluation engine (App.tsx) *)

(** The predicate of the [filter] in [evaluateRule]. *)
Definition claimsMetric {L : Js.LowerCase} (rule : Rule.t) (s : ExternalService.t)
  : bool :=
  existsb
    (fun metric =>
       Js.includes (Js.toLowerCase metric) (Js.toLowerCase (Rule.matcher rule)))
    (ExternalService.contractMetrics s).

Definition evaluateRule {L : Js.LowerCase} (rule : Rule.t)
    (services : list ExternalService.t) : EvaluatedRule.t :=
  let relevantServices := List.filter (claimsMetric rule) services in
  let status :=
    if (List.length relevantServices =? 0)%nat then
      if bool_decide (Rule.severity rule = Severity.CRITICAL)
      then RuleStatus.VIOLATED else RuleStatus.NOT_EVALUABLE
    else
      let hasConflict :=
        existsb
          (fun s => bool_decide
             (ExternalService.evaluationStatus s = ValidationStatus.CONFLICT))
          relevantServices in
      let hasUncertainty :=
        existsb
          (fun s => bool_decide
             (ExternalService.evaluationStatus s = ValidationStatus.UNCERTAIN))
          relevantServices in
      if hasConflict then RuleStatus.VIOLATED
      else if hasUncertainty then RuleStatus.NOT_EVALUABLE
      else RuleStatus.SATISFIED in
  {| EvaluatedRule.id := Rule.id rule;
     EvaluatedRule.description := Rule.description rule;
     EvaluatedRule.severity := Rule.severity rule;
     EvaluatedRule.matcher := Rule.matcher rule;
     EvaluatedRule.status := status;
     EvaluatedRule.matchingServices :=
       map ExternalService.name relevantServices |}.

Definition getEvaluatedRules {L : Js.LowerCase} (arrangement : Arrangement.t)
  : list EvaluatedRule.t :=
  map (fun rule => evaluateRule rule (Arrangement.services arrangement))
      (ContainerVersion.activeRules (Arrangement.container arrangement)).

(** ** Version graph: the state of [App] and its handlers (App.tsx) *)

Module SelectedEntity.
Record t := mk {
  type : EntityType.t;
  id : string
}.
End SelectedEntity.

Record AppState := mkAppState {
  arrangements : list Arrangement.t;
  activeArrangementId : string;
  selectedEntity : option SelectedEntity.t
}.

(** [{...s}] for a service. *)
Definition spreadService (s : ExternalService.t) : ExternalService.t :=
  {| ExternalService.id := ExternalService.id s;
     ExternalService.name := ExternalService.name s;
     ExternalService.type := ExternalService.type s;
     ExternalService.contractMetrics := ExternalService.contractMetrics s;
     ExternalService.isExperimental := ExternalService.isExperimental s;
     ExternalService.evaluationStatus := ExternalService.evaluationStatus s |}.

(** [{ ...s, evaluationStatus: v }]. *)
Definition withStatus (s : ExternalService.t) (v : ValidationStatus.t)
  : ExternalService.t :=
  {| ExternalService.id := ExternalService.id s;
     ExternalService.name := ExternalService.name s;
     ExternalService.type := ExternalService.type s;
     ExternalService.contractMetrics := ExternalService.contractMetrics s;
     ExternalService.isExperimental := ExternalService.isExperimental s;
     ExternalService.evaluationStatus := v |}.

(** [arrangements.find(a => a.id === activeArrangementId)]. *)
Definition activeArrangement (st : AppState) : option Arrangement.t :=
  List.find (fun a => String.eqb (Arrangement.id a) (activeArrangementId st))
            (arrangements st).

Definition forkHypothesis : string :=
  "Exploratory fork to test new boundary conditions.".

(** [handleFork]; [now1], [now2] and [now3] are the values of the three
    calls of [Date.now()], in evaluation order.  The result is [None] when
    there is no active arrangement ([activeArrangement.name] raises). *)
Definition handleFork (now1 now2 now3 : N) (st : AppState) : option AppState :=
  match activeArrangement st with
  | None => None
  | Some active =>
      let newId := "arr-" +:+ pretty now1 in
      let fork :=
        {| Arrangement.id := newId;
           Arrangement.name := Arrangement.name active +:+ " (Fork)";
           Arrangement.services := map spreadService (Arrangement.services active);
           Arrangement.container :=
             {| ContainerVersion.id := "cont-" +:+ pretty now2;
                ContainerVersion.versionLabel :=
                  ContainerVersion.versionLabel (Arrangement.container active)
                  +:+ ".1";
                ContainerVersion.hypothesis := forkHypothesis;
                ContainerVersion.activeRules :=
                  ContainerVersion.activeRules (Arrangement.container active) |};
           Arrangement.parentId := Some (Arrangement.id active);
           Arrangement.createdAt := now3 |} in
      Some {| arrangements := arrangements st ++ [fork];
              activeArrangementId := newId;
              selectedEntity := selectedEntity st |}
  end.

(** [{ ...arr, services: newServices }]. *)
Definition withServices (arr : Arrangement.t) (newServices : list ExternalService.t)
  : Arrangement.t :=
  {| Arrangement.id := Arrangement.id arr;
     Arrangement.name := Arrangement.name arr;
     Arrangement.container := Arrangement.container arr;
     Arrangement.services := newServices;
     Arrangement.parentId := Arrangement.parentId arr;
     Arrangement.createdAt := Arrangement.createdAt arr |}.

(** The function mapped over [prev] by [handleToggleService]; the catalog is
    the imported constant [MOCK_SERVICES]. *)
Definition toggleServiceIn (MOCK_SERVICES : list ExternalService.t)
    (activeId serviceId : string) (arr : Arrangement.t) : Arrangement.t :=
  if negb (String.eqb (Arrangement.id arr) activeId) then arr
  else
    match List.find (fun s => String.eqb (ExternalService.id s) serviceId)
                    (Arrangement.services arr) with
    | Some _ =>
        withServices arr
          (List.filter (fun s => negb (String.eqb (ExternalService.id s) serviceId))
                       (Arrangement.services arr))
    | None =>
        match List.find (fun s => String.eqb (ExternalService.id s) serviceId)
                        MOCK_SERVICES with
        | None => arr
        | Some svcTemplate =>
            withServices arr (Arrangement.services arr ++ [spreadService svcTemplate])
        end
    end.

(** Whether the updater of [handleToggleService] reaches
    [setSelectedEntity(null)]: some arrangement with the active id holds the
    service, and the selection has the id of the service. *)
Definition toggleDeselects (st : AppState) (serviceId : string) : bool :=
  existsb
    (fun arr =>
       String.eqb (Arrangement.id arr) (activeArrangementId st) &&
       bool_decide
         (is_Some (List.find (fun s => String.eqb (ExternalService.id s) serviceId)
                             (Arrangement.services arr))))
    (arrangements st)
  && match selectedEntity st with
     | Some e => String.eqb (SelectedEntity.id e) serviceId
     | None => false
     end.

Definition handleToggleService (MOCK_SERVICES : list ExternalService.t)
    (serviceId : string) (st : AppState) : AppState :=
  {| arrangements :=
       map (toggleServiceIn MOCK_SERVICES (activeArrangementId st) serviceId)
           (arrangements st);
     activeArrangementId := activeArrangementId st;
     selectedEntity :=
       if toggleDeselects st serviceId then None else selectedEntity st |}.

(** The function mapped over [prev] by [handleUpdateHypothesis]. *)
Definition updateHypothesisIn (activeId text : string) (arr : Arrangement.t)
  : Arrangement.t :=
  if negb (String.eqb (Arrangement.id arr) activeId) then arr
  else
    {| Arrangement.id := Arrangement.id arr;
       Arrangement.name := Arrangement.name arr;
       Arrangement.container :=
         {| ContainerVersion.id := ContainerVersion.id (Arrangement.container arr);
            ContainerVersion.versionLabel :=
              ContainerVersion.versionLabel (Arrangement.container arr);
            ContainerVersion.hypothesis := text;
            ContainerVersion.activeRules :=
              ContainerVersion.activeRules (Arrangement.container arr) |};
       Arrangement.services := Arrangement.services arr;
       Arrangement.parentId := Arrangement.parentId arr;
       Arrangement.createdAt := Arrangement.createdAt arr |}.

Definition handleUpdateHypothesis (text : string) (st : AppState) : AppState :=
  {| arrangements :=
       map (updateHypothesisIn (activeArrangementId st) text) (arrangements st);
     activeArrangementId := activeArrangementId st;
     selectedEntity := selectedEntity st |}.

(** [nextStatus] of [handleCycleStatus]: VALIDATED by default, CONFLICT after
    VALIDATED, UNCERTAIN after CONFLICT. *)
Definition nextStatus (current : ValidationStatus.t) : ValidationStatus.t :=
  if bool_decide (current = ValidationStatus.VALIDATED)
  then ValidationStatus.CONFLICT
  else if bool_decide (current = ValidationStatus.CONFLICT)
  then ValidationStatus.UNCERTAIN
  else ValidationStatus.VALIDATED.

(** The function mapped over [arr.services] by [handleCycleStatus]. *)
Definition cycleService (serviceId : string) (s : ExternalService.t)
  : ExternalService.t :=
  if negb (String.eqb (ExternalService.id s) serviceId) then s
  else withStatus s (nextStatus (ExternalService.evaluationStatus s)).

(** The function mapped over [prev] by [handleCycleStatus]. *)
Definition cycleStatusIn (activeId serviceId : string) (arr : Arrangement.t)
  : Arrangement.t :=
  if negb (String.eqb (Arrangement.id arr) activeId) then arr
  else withServices arr (map (cycleService serviceId) (Arrangement.services arr)).

Definition handleCycleStatus (serviceId : string) (st : AppState) : AppState :=
  {| arrangements :=
       map (cycleStatusIn (activeArrangementId st) serviceId) (arrangements st);
     activeArrangementId := activeArrangementId st;
     selectedEntity := selectedEntity st |}.

(** [setActiveArrangementId(arr.id)], the click on an entry of the sidebar. *)
Definition setActiveArrangementId (id : string) (st : AppState) : AppState :=
  {| arrangements := arrangements st;
     activeArrangementId := id;
     selectedEntity := selectedEntity st |}.

(** ** Comparison (components/ComparisonView.tsx) *)

Module ComparisonView.

Record ServiceDiff := mkServiceDiff {
  uniqueA : list ExternalService.t;
  uniqueB : list ExternalService.t;
  common : list ExternalService.t
}.

Definition getServiceDiff (arrangementA : Arrangement.t)
    (arrangementB : option Arrangement.t) : ServiceDiff :=
  match arrangementB with
  | None => {| uniqueA := []; uniqueB := []; common := [] |}
  | Some arrangementB =>
      let setA : gset string :=
        list_to_set (map ExternalService.id (Arrangement.services arrangementA)) in
      let setB : gset string :=
        list_to_set (map ExternalService.id (Arrangement.services arrangementB)) in
      {| uniqueA :=
           List.filter (fun s => negb (bool_decide (ExternalService.id s ∈ setB)))
                       (Arrangement.services arrangementA);
         uniqueB :=
           List.filter (fun s => negb (bool_decide (ExternalService.id s ∈ setA)))
                       (Arrangement.services arrangementB);
         common :=
           List.filter (fun s => bool_decide (ExternalService.id s ∈ setB))
                       (Arrangement.services arrangementA) |}
  end.

Definition rulesA {L : Js.LowerCase} (arrangementA : Arrangement.t)
  : list EvaluatedRule.t :=
  map (fun r => evaluateRule r (Arrangement.services arrangementA))
      (ContainerVersion.activeRules (Arrangement.container arrangementA)).

Definition rulesB {L : Js.LowerCase} (arrangementB : option Arrangement.t)
  : list EvaluatedRule.t :=
  match arrangementB with
  | None => []
  | Some arrangementB =>
      map (fun r => evaluateRule r (Arrangement.services arrangementB))
          (ContainerVersion.activeRules (Arrangement.container arrangementB))
  end.

(** What the component derives from its two arrangements before rendering. *)
Record Comparison := mkComparison {
  uniqueToA : list ExternalService.t;
  uniqueToB : list ExternalService.t;
  commonServices : list ExternalService.t;
  evaluatedRulesA : list EvaluatedRule.t;
  evaluatedRulesB : list EvaluatedRule.t
}.

Definition compare {L : Js.LowerCase} (arrangementA : Arrangement.t)
    (arrangementB : option Arrangement.t) : Comparison :=
  let diff := getServiceDiff arrangementA arrangementB in
  {| uniqueToA := uniqueA diff;
     uniqueToB := uniqueB diff;
     commonServices := common diff;
     evaluatedRulesA := rulesA arrangementA;
     evaluatedRulesB := rulesB arrangementB |}.

End ComparisonView.

(** ** Seed data (constants.ts) *)

Module Constants.

Import ServiceType ValidationStatus Severity.

Definition MOCK_SERVICES : list ExternalService.t :=
  [ ExternalService.mk "svc-onprem-db" "Legacy SQL Cluster (On-Prem)" DATABASE
      ["High OpEx Maintenance"; "99.5% Uptime"; "Local Compliance Control"]
      false VALIDATED;
    ExternalService.mk "svc-onprem-backup" "Tape/Local Backup System" DATABASE
      ["DR RTO 48h"; "Manual Restore Process"; "CapEx Heavy"]
      false VALIDATED;
    ExternalService.mk "svc-onprem-analytics" "Legacy Reporting Server" API
      ["Batch Processing (Overnight)"; "Limited Scale"]
      false VALIDATED;
    ExternalService.mk "cloud_storage_HIPAA" "Cloud Storage (HIPAA/HITRUST)" DATABASE
      ["Cost Reduced 45%"; "Encryption at Rest"; "Audit Logging"; "Infinite Scale"]
      false VALIDATED;
    ExternalService.mk "cloud_analytics_platform" "Cloud Analytics Platform" API
      ["Performance 10x Increase"; "Predictive Insights"; "Real-time Processing"]
      false VALIDATED;
    ExternalService.mk "cloud_backup_DR" "Cloud DR & Failover" QUEUE
      ["DR RTO 30min"; "Auto-Failover"; "99.99% Availability"]
      false VALIDATED;
    ExternalService.mk "human_consistency_review" "Clinical Consistency Review" AUTH
      ["Manual Validation Required"; "Cognitive Load: High"; "Risk: Human Error"]
      false UNCERTAIN ].

Definition MIGRATION_DRIVERS : list Rule.t :=
  [ Rule.mk "r_cost" "Infrastructure Cost Efficiency" WARNING "Cost";
    Rule.mk "r_dr" "Disaster Recovery Standards" CRITICAL "DR";
    Rule.mk "r_perf" "Analytics Performance" WARNING "Performance";
    Rule.mk "r_comp" "Regulatory Compliance (HIPAA)" CRITICAL "Compliance";
    Rule.mk "r_valid" "Clinical Data Integrity" CRITICAL "Validation" ].

Definition CONT_LEGACY : ContainerVersion.t :=
  {| ContainerVersion.id := "container_legacy_hospital_on_prem";
     ContainerVersion.versionLabel := "v1.0-Legacy-Baseline";
     ContainerVersion.hypothesis :=
       "Traditional infrastructure offers maximum control but suffers from high costs (OpEx) and slow disaster recovery (48h).";
     ContainerVersion.activeRules :=
       List.filter (fun r => negb (String.eqb (Rule.id r) "r_perf"))
                   MIGRATION_DRIVERS |}.

Definition CONT_CLOUD : ContainerVersion.t :=
  {| ContainerVersion.id := "container_healthcare_cloud_case0";
     ContainerVersion.versionLabel := "v2.0-Cloud-Migration";
     ContainerVersion.hypothesis :=
       "Migrating to HIPAA-compliant cloud reduces TCO by 45%, improves DR to 30min, and boosts analytics 10x.";
     ContainerVersion.activeRules := MIGRATION_DRIVERS |}.

(** [MOCK_SERVICES[i]]; the indices used below are in range. *)
Definition mockService (i : nat) : ExternalService.t :=
  nth i MOCK_SERVICES
      (ExternalService.mk "" "" DATABASE [] false VALIDATED).

(** [now1] and [now2] are the values of [Date.now()] at module load. *)
Definition INITIAL_ARRANGEMENTS (now1 now2 : N) : list Arrangement.t :=
  [ {| Arrangement.id := "arr-legacy";
       Arrangement.name := "Legacy On-Premise";
       Arrangement.container := CONT_LEGACY;
       Arrangement.services :=
         [ spreadService (mockService 0);
           spreadService (mockService 1);
           spreadService (mockService 2) ];
       Arrangement.parentId := None;
       Arrangement.createdAt := now1 |};
    {| Arrangement.id := "arr-cloud";
       Arrangement.name := "Cloud Migration (HIPAA)";
       Arrangement.container := CONT_CLOUD;
       Arrangement.services :=
         [ spreadService (mockService 3);
           spreadService (mockService 4);
           spreadService (mockService 5);
           withStatus (mockService 6) CONFLICT ];
       Arrangement.parentId := Some "arr-legacy";
       Arrangement.createdAt := (now2 + 1000)%N |} ].

(** The state of [App] after its first render. *)
Definition initialState (now1 now2 : N) : AppState :=
  {| arrangements := INITIAL_ARRANGEMENTS now1 now2;
     activeArrangementId := "arr-legacy";
     selectedEntity := None |}.

End Constants.

(** Sample inputs: the rules of the seed data and the services of the
    scenarios of the specification. *)
Module Samples.

Import Constants.

Definition r_cost : Rule.t :=
  Rule.mk "r_cost" "Infrastructure Cost Efficiency" Severity.WARNING "Cost".
Definition r_dr : Rule.t :=
  Rule.mk "r_dr" "Disaster Recovery Standards" Severity.CRITICAL "DR".

Definition backup : ExternalService.t := mockService 1.
Definition cloudDR : ExternalService.t := mockService 5.
Definition analytics : ExternalService.t := mockService 2.

(** Relevant services with statuses VALIDATED, CONFLICT and UNCERTAIN, and one
    service without the metric. *)
Definition mixedEvidence : list ExternalService.t :=
  [ backup;
    analytics;
    withStatus cloudDR ValidationStatus.CONFLICT;
    withStatus backup ValidationStatus.UNCERTAIN ].

(** States of the application: the seed state, the state after one fork, and
    the state after a fork of that fork for which [Date.now()] gives the
    same reading. *)
Definition tick : N := 1700000000000.

Definition seed : AppState := initialState tick tick.

Definition forkedOnce : option AppState := handleFork tick tick tick seed.

Definition forkedTwice : option AppState :=
  match forkedOnce with
  | Some st => handleFork tick tick tick st
  | None => None
  end.

Definition legacy : Arrangement.t :=
  nth 0 (INITIAL_ARRANGEMENTS tick tick)
      (Arrangement.mk "" "" CONT_LEGACY [] None 0).

Definition cloud : Arrangement.t :=
  nth 1 (INITIAL_ARRANGEMENTS tick tick)
      (Arrangement.mk "" "" CONT_LEGACY [] None 0).

End Samples.

(** ** Inspector and palette (App.tsx) *)

(** The value of [getActiveEntityData]: the selected container with the
    evaluated rules, or the selected service with its contract metrics. *)
Inductive EntityData :=
| ContainerData (data : ContainerVersion.t) (label : string)
    (details : list EvaluatedRule.t)
| ServiceData (data : ExternalService.t) (label : string)
    (details : list string).

(** [getActiveEntityData]; [activeArrangement] and [selectedEntity] are the
    values it reads from the component, and [activeRules] is
    [getEvaluatedRules(activeArrangement)]. *)
Definition getActiveEntityData {L : Js.LowerCase}
    (activeArrangement : Arrangement.t)
    (selectedEntity : option SelectedEntity.t) : option EntityData :=
  match selectedEntity with
  | None => None
  | Some selected =>
      if bool_decide (SelectedEntity.type selected = EntityType.CONTAINER) then
        Some (ContainerData (Arrangement.container activeArrangement)
                "Container Version" (getEvaluatedRules activeArrangement))
      else
        match List.find
                (fun s => String.eqb (ExternalService.id s) (SelectedEntity.id selected))
                (Arrangement.services activeArrangement) with
        | Some svc =>
            Some (ServiceData svc "External Service"
                    (ExternalService.contractMetrics svc))
        | None => None
        end
  end.

(** [isActive] of the services palette:
    [activeArrangement.services.some(s => s.id === svc.id)]. *)
Definition isActive (activeArrangement : Arrangement.t) (svc : ExternalService.t)
  : bool :=
  existsb (fun s => String.eqb (ExternalService.id s) (ExternalService.id svc))
          (Arrangement.services activeArrangement).

(** [onNodeClick] of the graph: [setSelectedEntity({type, id})]. *)
Definition setSelectedEntity (selected : option SelectedEntity.t) (st : AppState)
  : AppState :=
  {| arrangements := arrangements st;
     activeArrangementId := activeArrangementId st;
     selectedEntity := selected |}.

(** The second arrangement handed to [ComparisonView]:
    [arrangements.find(a => a.id === compareId) || null]. *)
Definition arrangementB (arrangements : list Arrangement.t)
    (compareId : option string) : option Arrangement.t :=
  match compareId with
  | None => None
  | Some compareId =>
      List.find (fun a => String.eqb (Arrangement.id a) compareId) arrangements
  end.

(** The entries of the selector of [ComparisonView]:
    [allArrangements.filter(a => a.id !== arrangementA.id)]. *)
Definition selectOptions (allArrangements : list Arrangement.t)
    (arrangementA : Arrangement.t) : list Arrangement.t :=
  List.filter
    (fun a => negb (String.eqb (Arrangement.id a) (Arrangement.id arrangementA)))
    allArrangements.

(** ** Graph data (constants.ts, components/GraphCanvas.tsx) *)

Module COLORS.
Definition container : string := "#6366f1".
Definition service : string := "#10b981".
Definition serviceExperimental : string := "#f59e0b".
Definition conflict : string := "#ef4444".
Definition uncertain : string := "#94a3b8".
Definition validated : string := "#10b981".
End COLORS.

Module GraphCanvas.

Record GraphNode := mkGraphNode {
  id : string;
  type : EntityType.t;
  label : string;
  radius : N;
  color : string;
  strokeColor : string;
  strokeDash : string;
  isExperimental : option bool
}.

Record GraphLink := mkGraphLink {
  source : string;
  target : string;
  status : ValidationStatus.t
}.

(** The central node pushed first. *)
Definition containerNode (arrangement : Arrangement.t) : GraphNode :=
  {| id := ContainerVersion.id (Arrangement.container arrangement);
     type := EntityType.CONTAINER;
     label := ContainerVersion.versionLabel (Arrangement.container arrangement);
     radius := 40;
     color := COLORS.container;
     strokeColor := "#ffffff";
     strokeDash := "none";
     isExperimental := None |}.

(** The node pushed for a service: the visuals follow the evaluation status. *)
Definition serviceNode (svc : ExternalService.t) : GraphNode :=
  let '(color, strokeColor, strokeDash) :=
    if bool_decide (ExternalService.evaluationStatus svc = ValidationStatus.CONFLICT)
    then (COLORS.conflict, "#fca5a5", "none")
    else if bool_decide
              (ExternalService.evaluationStatus svc = ValidationStatus.UNCERTAIN)
    then ("#334155", COLORS.uncertain, "4,2")
    else
      (if ExternalService.isExperimental svc
       then "rgba(245, 158, 11, 0.2)" else "rgba(16, 185, 129, 0.2)",
       if ExternalService.isExperimental svc
       then COLORS.serviceExperimental else COLORS.service,
       "none") in
  {| id := ExternalService.id svc;
     type := EntityType.SERVICE;
     label := ExternalService.name svc;
     radius := 25;
     color := color;
     strokeColor := strokeColor;
     strokeDash := strokeDash;
     isExperimental := Some (ExternalService.isExperimental svc) |}.

(** The link pushed for a service. *)
Definition serviceLink (arrangement : Arrangement.t) (svc : ExternalService.t)
  : GraphLink :=
  {| source := ContainerVersion.id (Arrangement.container arrangement);
     target := ExternalService.id svc;
     status := ExternalService.evaluationStatus svc |}.

(** Step 1 of the effect, "Prepare Data": the arrays [nodes] and [links]
    after the container node and the [forEach] over the services. *)
Definition prepareData (arrangement : Arrangement.t)
  : list GraphNode * list GraphLink :=
  fold_left
    (fun '(nodes, links) svc =>
       (nodes ++ [serviceNode svc], links ++ [serviceLink arrangement svc]))
    (Arrangement.services arrangement)
    ([containerNode arrangement], []).

(** The attributes given to the line of a link. *)
Definition linkStrokeWidth (d : GraphLink) : N :=
  if bool_decide (status d = ValidationStatus.CONFLICT) then 3 else 2.

Definition linkStroke (d : GraphLink) : string :=
  if bool_decide (status d = ValidationStatus.CONFLICT) then COLORS.conflict
  else if bool_decide (status d = ValidationStatus.UNCERTAIN) then COLORS.uncertain
  else COLORS.validated.

Definition linkStrokeDasharray (d : GraphLink) : string :=
  if bool_decide (status d = ValidationStatus.UNCERTAIN) then "5,5" else "none".

(** The shape appended to the group of a node. *)
Inductive Shape := Rect | Circle.

Definition nodeShape (d : GraphNode) : Shape :=
  if bool_decide (type d = EntityType.CONTAINER) then Rect else Circle.

(** The contents of the [text] elements appended to the group of a node by
    [node.each], in the order of the calls. *)
Definition nodeTexts (d : GraphNode) : list string :=
  (if bool_decide (type d = EntityType.CONTAINER) then []
   else match isExperimental d with
        | Some true => ["EXP"]
        | _ => []
        end)
  ++ [label d]
  ++ (if bool_decide (type d = EntityType.SERVICE)
         && String.eqb (strokeColor d) COLORS.conflict
      then ["!"] else [])
  ++ (if bool_decide (type d = EntityType.SERVICE)
         && negb (String.eqb (strokeDash d) "none")
      then ["?"] else []).

(** [onNodeClick(d.type, d.id)] as wired by [App]. *)
Definition clickNode (d : GraphNode) (st : AppState) : AppState :=
  setSelectedEntity (Some (SelectedEntity.mk (type d) (id d))) st.

End GraphCanvas.

(** ** Specification vocabulary *)

(** [t] occurs in [s]. *)
Definition Substring (t s : string) : Prop :=
  ∃ pre post, s = pre +:+ t +:+ post.

(** [matcher] occurs in [metric] once both are lower-cased. *)
Definition ContainsIgnoringCase {L : Js.LowerCase} (metric matcher : string)
  : Prop :=
  Substring (Js.toLowerCase matcher) (Js.toLowerCase metric).



(** A service is relevant for a rule when the lower-cased matcher of the
    rule occurs in one of its lower-cased contract metrics. *)
Definition Relevant {L : Js.LowerCase} (rule : Rule.t) (s : ExternalService.t)
  : Prop :=
  ∃ metric, metric ∈ ExternalService.contractMetrics s
            ∧ ContainsIgnoringCase metric (Rule.matcher rule).


(** The invariant of the data model on service sets: within an arrangement
    no two services have the same id. *)
Definition UniqueServiceIds (arr : Arrangement.t) : Prop :=
  NoDup (ExternalService.id <$> Arrangement.services arr).

(** The events of the interface, as [App] wires them to its handlers: the
    fork button, a palette entry, the hypothesis text area, the status button
    of the inspector, an entry of the sidebar (one per arrangement of the
    collection) and a node of the graph. *)
Inductive step {L : Js.LowerCase} (MOCK_SERVICES : list ExternalService.t)
  : AppState → AppState → Prop :=
| step_fork now1 now2 now3 st st' :
    handleFork now1 now2 now3 st = Some st' → step MOCK_SERVICES st st'
| step_toggle svc st :
    svc ∈ MOCK_SERVICES →
    step MOCK_SERVICES st
      (handleToggleService MOCK_SERVICES (ExternalService.id svc) st)
| step_update text st :
    step MOCK_SERVICES st (handleUpdateHypothesis text st)
| step_cycle a svc label details st :
    activeArrangement st = Some a →
    getActiveEntityData a (selectedEntity st) = Some (ServiceData svc label details) →
    step MOCK_SERVICES st (handleCycleStatus (ExternalService.id svc) st)
| step_select_arrangement arr st :
    arr ∈ arrangements st →
    step MOCK_SERVICES st (setActiveArrangementId (Arrangement.id arr) st)
| step_click_node a d st :
    activeArrangement st = Some a →
    d ∈ (GraphCanvas.prepareData a).1 →
    step MOCK_SERVICES st (GraphCanvas.clickNode d st).

(** * Properties

    Everything in this section is proved for an arbitrary lower-casing
    function [L], of which only the values on ASCII text are known. *)

Section Generic.

Context {L : Js.LowerCase}.

(** ** Strings: lemmas *)

Section StringLemmas.

Lemma app_cons_string (c : ascii) (s t : string) :
  String c s +:+ t = String c (s +:+ t).
Proof. reflexivity. Qed.

Lemma startsWith_spec (s t : string) :
  Js.startsWith s t = true ↔ ∃ post, s = t +:+ post.
Proof.
  revert s. induction t as [|b t IH]; intros s; simpl.
  - split; [intros _; by exists s | done].
  - destruct s as [|a s].
    + split; [done | intros [post H]; by rewrite app_cons_string in H].
    + rewrite andb_true_iff, Ascii.eqb_eq, IH. split.
      * intros [-> [post ->]]. by exists post.
      * intros [post H]. rewrite app_cons_string in H.
        injection H as -> ->. eauto.
Qed.

Lemma includes_spec (s t : string) :
  Js.includes s t = true ↔ Substring t s.
Proof.
  unfold Substring. induction s as [|a s IH]; simpl.
  - rewrite orb_false_r, startsWith_spec. split.
    + intros [post H]. by exists "", post.
    + intros [[|c pre] [post H]]; [by exists post|].
      by rewrite app_cons_string in H.
  - rewrite orb_true_iff, startsWith_spec, IH. split.
    + intros [[post H] | [pre [post H]]].
      * by exists "", post.
      * exists (String a pre), post. by rewrite app_cons_string, H.
    + intros [[|c pre] [post H]].
      * left. by exists post.
      * right. rewrite app_cons_string in H.
        injection H as -> ->. by exists pre, post.
Qed.

Lemma includes_empty (s : string) : Js.includes s "" = true.
Proof. destruct s; reflexivity. Qed.









End StringLemmas.

(** ** Rule evaluation: lemmas *)

Lemma toLowerCase_empty : Js.toLowerCase "" = "".
Proof. by rewrite Js.toLowerCase_ascii. Qed.

Lemma claimsMetric_Relevant (rule : Rule.t) (s : ExternalService.t) :
  claimsMetric rule s = true ↔ Relevant rule s.
Proof.
  unfold claimsMetric, Relevant, ContainsIgnoringCase. rewrite existsb_exists.
  split.
  - intros (m & Hin & H). exists m. split.
    + by apply list_elem_of_In.
    + by apply includes_spec.
  - intros (m & Hin & H). exists m. split.
    + by apply list_elem_of_In.
    + by apply includes_spec.
Qed.

Lemma claimsMetric_not_Relevant (rule : Rule.t) (s : ExternalService.t) :
  claimsMetric rule s = false ↔ ¬ Relevant rule s.
Proof. rewrite <- claimsMetric_Relevant. by destruct (claimsMetric rule s). Qed.

Lemma elem_of_relevantServices (rule : Rule.t) (services : list ExternalService.t)
    (s : ExternalService.t) :
  s ∈ List.filter (claimsMetric rule) services ↔ s ∈ services ∧ Relevant rule s.
Proof.
  rewrite !list_elem_of_In, filter_In. by rewrite claimsMetric_Relevant.
Qed.

Lemma length_eqb_0_nil {A} (l : list A) :
  (List.length l =? 0)%nat = true ↔ l = [].
Proof. destruct l; simpl; split; done. Qed.

Lemma existsb_status (v : ValidationStatus.t) (l : list ExternalService.t) :
  existsb (fun s => bool_decide (ExternalService.evaluationStatus s = v)) l = true
  ↔ ∃ s, s ∈ l ∧ ExternalService.evaluationStatus s = v.
Proof.
  rewrite existsb_exists. split; intros (s & Hin & H); exists s.
  - split; [by apply list_elem_of_In | by apply bool_decide_eq_true in H].
  - split; [by apply list_elem_of_In | by apply bool_decide_eq_true].
Qed.

Lemma relevantServices_nil (rule : Rule.t) (services : list ExternalService.t) :
  List.filter (claimsMetric rule) services = []
  ↔ ∀ s, s ∈ services → ¬ Relevant rule s.
Proof.
  split.
  - intros Hnil s Hs Hrel.
    assert (s ∈ List.filter (claimsMetric rule) services) as Hin
      by by apply elem_of_relevantServices.
    rewrite Hnil in Hin. by apply not_elem_of_nil in Hin.
  - intros Hnone. destruct (List.filter (claimsMetric rule) services) as [|s l] eqn:E;
      [done|].
    assert (s ∈ List.filter (claimsMetric rule) services) as Hin
      by (rewrite E; apply list_elem_of_here).
    apply elem_of_relevantServices in Hin as [Hs Hrel]. by destruct (Hnone s Hs).
Qed.



(** ** Rule evaluation: theorems *)

(** C1. When some service is relevant for the rule, the verdict follows the
    precedence of the evidence: VIOLATED as soon as one relevant service is in
    CONFLICT; otherwise NOT_EVALUABLE as soon as one is UNCERTAIN; otherwise,
    all relevant services being VALIDATED, SATISFIED.  One of the three cases
    always applies. *)
Theorem evaluateRule_precedence (rule : Rule.t) (services : list ExternalService.t) :
  (∃ s, s ∈ services ∧ Relevant rule s) →
  ((∃ s, s ∈ services ∧ Relevant rule s
         ∧ ExternalService.evaluationStatus s = ValidationStatus.CONFLICT) →
   EvaluatedRule.status (evaluateRule rule services) = RuleStatus.VIOLATED)
  ∧ ((∀ s, s ∈ services → Relevant rule s →
           ExternalService.evaluationStatus s ≠ ValidationStatus.CONFLICT) →
     (∃ s, s ∈ services ∧ Relevant rule s
           ∧ ExternalService.evaluationStatus s = ValidationStatus.UNCERTAIN) →
     EvaluatedRule.status (evaluateRule rule services) = RuleStatus.NOT_EVALUABLE)
  ∧ ((∀ s, s ∈ services → Relevant rule s →
           ExternalService.evaluationStatus s = ValidationStatus.VALIDATED) →
     EvaluatedRule.status (evaluateRule rule services) = RuleStatus.SATISFIED)
  ∧ ((∃ s, s ∈ services ∧ Relevant rule s
           ∧ ExternalService.evaluationStatus s = ValidationStatus.CONFLICT)
     ∨ ((∀ s, s ∈ services → Relevant rule s →
              ExternalService.evaluationStatus s ≠ ValidationStatus.CONFLICT)
        ∧ ∃ s, s ∈ services ∧ Relevant rule s
               ∧ ExternalService.evaluationStatus s = ValidationStatus.UNCERTAIN)
     ∨ (∀ s, s ∈ services → Relevant rule s →
             ExternalService.evaluationStatus s = ValidationStatus.VALIDATED)).
Proof.
  intros (s0 & Hs0 & Hrel0). unfold evaluateRule; simpl.
  set (relevant := List.filter (claimsMetric rule) services).
  assert ((List.length relevant =? 0)%nat = false) as ->.
  { apply not_true_is_false. rewrite length_eqb_0_nil.
    unfold relevant. rewrite relevantServices_nil. intros H. by apply (H s0). }
  assert (∀ v, (∃ s, s ∈ relevant ∧ ExternalService.evaluationStatus s = v)
               ↔ ∃ s, s ∈ services ∧ Relevant rule s
                      ∧ ExternalService.evaluationStatus s = v) as Hex.
  { intros v. unfold relevant. split.
    - intros (s & [? ?]%elem_of_relevantServices & ?). by exists s.
    - intros (s & ? & ? & ?). exists s. by rewrite elem_of_relevantServices. }
  destruct (existsb (fun s => bool_decide
              (ExternalService.evaluationStatus s = ValidationStatus.CONFLICT))
            relevant) eqn:Ec.
  - apply existsb_status, Hex in Ec. split; [done | split; [|split]].
    + intros Hno _. destruct Ec as (s & ? & ? & ?). by destruct (Hno s).
    + intros Hall. destruct Ec as (s & ? & ? & E). by rewrite Hall in E.
    + by left.
  - assert (∀ s, s ∈ services → Relevant rule s →
                 ExternalService.evaluationStatus s ≠ ValidationStatus.CONFLICT)
      as Hno.
    { intros s ? ? E. apply not_true_iff_false in Ec. apply Ec.
      apply existsb_status, Hex. by exists s. }
    destruct (existsb (fun s => bool_decide
                (ExternalService.evaluationStatus s = ValidationStatus.UNCERTAIN))
              relevant) eqn:Eu.
    + apply existsb_status, Hex in Eu. split; [|split; [done | split]].
      * intros (s & ? & ? & ?). by destruct (Hno s).
      * intros Hall. destruct Eu as (s & ? & ? & E). by rewrite Hall in E.
      * right; by left.
    + assert (∀ s, s ∈ services → Relevant rule s →
                   ExternalService.evaluationStatus s = ValidationStatus.VALIDATED)
        as Hall.
      { intros s Hs Hrel.
        destruct (ExternalService.evaluationStatus s) eqn:E; [done| |].
        - apply not_true_iff_false in Eu. destruct Eu.
          apply existsb_status, Hex. by exists s.
        - by destruct (Hno s Hs Hrel). }
      split; [|split; [|split; [done|]]].
      * intros (s & ? & ? & ?). by destruct (Hno s).
      * intros _ (s & ? & ? & E). by rewrite Hall in E.
      * right; by right.
Qed.

(** C2. When no service is relevant for the rule, the verdict is VIOLATED for
    a CRITICAL rule and NOT_EVALUABLE for a WARNING rule, and no service is
    reported; the empty service sequence is such a case. *)
Theorem evaluateRule_no_evidence (rule : Rule.t) (services : list ExternalService.t) :
  (∀ s, s ∈ services → ¬ Relevant rule s) →
  (EvaluatedRule.status (evaluateRule rule services)
   = match Rule.severity rule with
     | Severity.CRITICAL => RuleStatus.VIOLATED
     | Severity.WARNING => RuleStatus.NOT_EVALUABLE
     end)
  ∧ EvaluatedRule.matchingServices (evaluateRule rule services) = []
  ∧ (EvaluatedRule.status (evaluateRule rule [])
     = match Rule.severity rule with
       | Severity.CRITICAL => RuleStatus.VIOLATED
       | Severity.WARNING => RuleStatus.NOT_EVALUABLE
       end).
Proof.
  intros Hnone. apply relevantServices_nil in Hnone.
  unfold evaluateRule; simpl. rewrite Hnone; simpl.
  by destruct (Rule.severity rule).
Qed.


(** Outside ASCII the verdict follows the lower-casing of the language: a
    capital cedilla and tilde are folded, and a capital sigma at the end of
    a word becomes a final sigma, which is not the lower-case sigma. *)
Example claimsMetric_cedilla :
  Js.toLowerCase "MIGRAÇÃO SEGURA" = "migração segura" →
  Js.toLowerCase "migração" = "migração" →
  claimsMetric
    (Rule.mk "r" "" Severity.WARNING "migração")
    (ExternalService.mk "s" "S" ServiceType.API ["MIGRAÇÃO SEGURA"] false
       ValidationStatus.VALIDATED)
  = true.
Proof. intros H1 H2. unfold claimsMetric. simpl. by rewrite H1, H2. Qed.

Example claimsMetric_final_sigma :
  Js.toLowerCase "ΟΔΟΣ" = "οδος" →
  Js.toLowerCase "Σ" = "σ" →
  claimsMetric
    (Rule.mk "r" "" Severity.WARNING "Σ")
    (ExternalService.mk "s" "S" ServiceType.API ["ΟΔΟΣ"] false
       ValidationStatus.VALIDATED)
  = false.
Proof. intros H1 H2. unfold claimsMetric. simpl. by rewrite H1, H2. Qed.

(** C10. With an empty matcher the relevant services are exactly those with
    at least one contract metric; a service without contract metrics is
    relevant for no matcher. *)
Theorem evaluateRule_empty_matcher (rule : Rule.t)
    (services : list ExternalService.t) :
  (Rule.matcher rule = "" →
   (∀ s, claimsMetric rule s = true ↔ ExternalService.contractMetrics s ≠ [])
   ∧ (∀ s, Relevant rule s ↔ ExternalService.contractMetrics s ≠ [])
   ∧ EvaluatedRule.matchingServices (evaluateRule rule services)
     = map ExternalService.name
         (List.filter
            (fun s => negb (bool_decide (ExternalService.contractMetrics s = [])))
            services))
  ∧ (∀ s, ExternalService.contractMetrics s = [] →
          claimsMetric rule s = false ∧ ¬ Relevant rule s).
Proof.
  assert (∀ s, ExternalService.contractMetrics s = [] → claimsMetric rule s = false)
    as Hnone.
  { intros s H. unfold claimsMetric. by rewrite H. }
  split.
  - intros Hm.
    assert (∀ s, claimsMetric rule s
                 = negb (bool_decide (ExternalService.contractMetrics s = [])))
      as Hcl.
    { intros s. unfold claimsMetric. rewrite Hm, toLowerCase_empty.
      destruct (ExternalService.contractMetrics s) as [|m l]; [done|].
      simpl. by rewrite includes_empty. }
    assert (∀ s, claimsMetric rule s = true
                 ↔ ExternalService.contractMetrics s ≠ []) as Hiff.
    { intros s. rewrite Hcl, negb_true_iff, bool_decide_eq_false. done. }
    split; [done | split].
    + intros s. by rewrite <- claimsMetric_Relevant.
    + unfold evaluateRule; simpl. f_equal.
      induction services as [|s l IH]; simpl; [done|].
      by rewrite Hcl, IH.
  - intros s H. split; [by apply Hnone|].
    apply claimsMetric_not_Relevant. by apply Hnone.
Qed.

(** ** Version graph: lemmas *)

Section MapLemmas.

Context {A : Type}.

Lemma map_fixed (f : A → A) (l : list A) :
  (∀ a, a ∈ l → f a = a) → map f l = l.
Proof.
  induction l as [|x l IH]; intros H; simpl; [done|].
  rewrite H by apply list_elem_of_here.
  rewrite IH; [done|]. intros a Ha. apply H. by apply list_elem_of_further.
Qed.

Lemma map_lookup_fixed (f : A → A) (l : list A) (i : nat) (a : A) :
  l !! i = Some a → f a = a → map f l !! i = Some a.
Proof. intros Hl Hf. change (map f l) with (f <$> l). by rewrite list_lookup_fmap, Hl; simpl; rewrite Hf. Qed.

Lemma map_middle (f : A → A) (before after : list A) (a : A) :
  (∀ x, x ∈ before ++ after → f x = x) →
  map f (before ++ a :: after) = before ++ f a :: after.
Proof.
  intros H. rewrite map_app; simpl. rewrite !map_fixed; [done| |].
  - intros x Hx. apply H. apply elem_of_app. by right.
  - intros x Hx. apply H. apply elem_of_app. by left.
Qed.

Lemma find_none (f : A → bool) (l : list A) :
  List.find f l = None ↔ ∀ a, a ∈ l → f a = false.
Proof.
  split.
  - intros H a Ha. apply list_elem_of_In in Ha. by apply (find_none f l H).
  - induction l as [|x l IH]; intros H; simpl; [done|].
    rewrite (H x) by apply list_elem_of_here.
    apply IH. intros a Ha. apply H. by apply list_elem_of_further.
Qed.

Lemma find_first (f : A → bool) (before after : list A) (a : A) :
  (∀ x, x ∈ before → f x = false) → f a = true →
  List.find f (before ++ a :: after) = Some a.
Proof.
  induction before as [|x l IH]; intros H Ha; simpl.
  - by rewrite Ha.
  - rewrite (H x) by apply list_elem_of_here.
    apply IH; [|done]. intros y Hy. apply H. by apply list_elem_of_further.
Qed.

End MapLemmas.

Lemma eqb_id_false (a b : string) : a ≠ b → negb (String.eqb a b) = true.
Proof. intros H. by apply negb_true_iff, String.eqb_neq. Qed.

Lemma spreadService_eq (s : ExternalService.t) : spreadService s = s.
Proof. by destruct s. Qed.

Lemma map_spreadService (l : list ExternalService.t) : map spreadService l = l.
Proof. apply map_fixed. intros s _. apply spreadService_eq. Qed.

Lemma toggleServiceIn_other (catalog : list ExternalService.t)
    (activeId serviceId : string) (arr : Arrangement.t) :
  Arrangement.id arr ≠ activeId →
  toggleServiceIn catalog activeId serviceId arr = arr.
Proof. intros H. unfold toggleServiceIn. by rewrite eqb_id_false. Qed.

Lemma updateHypothesisIn_other (activeId text : string) (arr : Arrangement.t) :
  Arrangement.id arr ≠ activeId → updateHypothesisIn activeId text arr = arr.
Proof. intros H. unfold updateHypothesisIn. by rewrite eqb_id_false. Qed.

Lemma cycleStatusIn_other (activeId serviceId : string) (arr : Arrangement.t) :
  Arrangement.id arr ≠ activeId → cycleStatusIn activeId serviceId arr = arr.
Proof. intros H. unfold cycleStatusIn. by rewrite eqb_id_false. Qed.

Lemma cycleService_other (serviceId : string) (s : ExternalService.t) :
  ExternalService.id s ≠ serviceId → cycleService serviceId s = s.
Proof. intros H. unfold cycleService. by rewrite eqb_id_false. Qed.

(** ** Version graph: theorems *)

Lemma nextStatus_three (v : ValidationStatus.t) :
  nextStatus (nextStatus (nextStatus v)) = v.
Proof. by destruct v. Qed.

Lemma cycleService_same (serviceId : string) (s : ExternalService.t) :
  ExternalService.id s = serviceId →
  cycleService serviceId s
  = withStatus s (nextStatus (ExternalService.evaluationStatus s)).
Proof.
  intros H. unfold cycleService.
  by rewrite (proj2 (String.eqb_eq _ _) H).
Qed.

Lemma cycleService_id (serviceId : string) (s : ExternalService.t) :
  ExternalService.id (cycleService serviceId s) = ExternalService.id s.
Proof. unfold cycleService. by destruct (negb _). Qed.

Lemma cycleService_three (serviceId : string) (s : ExternalService.t) :
  cycleService serviceId (cycleService serviceId (cycleService serviceId s)) = s.
Proof.
  destruct (decide (ExternalService.id s = serviceId)) as [E|E].
  - rewrite !cycleService_same by (by rewrite ?cycleService_id).
    destruct s; simpl in *.
    by rewrite nextStatus_three.
  - by rewrite !cycleService_other by (by rewrite ?cycleService_id).
Qed.

Lemma cycleStatusIn_same (activeId serviceId : string) (arr : Arrangement.t) :
  Arrangement.id arr = activeId →
  cycleStatusIn activeId serviceId arr
  = withServices arr (map (cycleService serviceId) (Arrangement.services arr)).
Proof.
  intros H. unfold cycleStatusIn.
  by rewrite (proj2 (String.eqb_eq _ _) H).
Qed.

Lemma cycleStatusIn_id (activeId serviceId : string) (arr : Arrangement.t) :
  Arrangement.id (cycleStatusIn activeId serviceId arr) = Arrangement.id arr.
Proof. unfold cycleStatusIn. by destruct (negb _). Qed.

Lemma cycleStatusIn_three (activeId serviceId : string) (arr : Arrangement.t) :
  cycleStatusIn activeId serviceId
    (cycleStatusIn activeId serviceId (cycleStatusIn activeId serviceId arr))
  = arr.
Proof.
  destruct (decide (Arrangement.id arr = activeId)) as [E|E].
  - rewrite !cycleStatusIn_same by (by rewrite ?cycleStatusIn_id).
    destruct arr as [i n c ss p t]; simpl.
    unfold withServices; simpl. f_equal. rewrite !map_map.
    apply map_fixed. intros s _. apply cycleService_three.
  - by rewrite !cycleStatusIn_other by (by rewrite ?cycleStatusIn_id).
Qed.

Lemma handleCycleStatus_three (serviceId : string) (st : AppState) :
  handleCycleStatus serviceId
    (handleCycleStatus serviceId (handleCycleStatus serviceId st)) = st.
Proof.
  destruct st as [arrs active sel]. unfold handleCycleStatus; simpl. f_equal.
  rewrite !map_map. apply map_fixed. intros a _. apply cycleStatusIn_three.
Qed.

(** What [handleCycleStatus] does at each position of the collection and of
    the service arrays: the service with the given id in an arrangement with
    the active id gets the next status, everything else stays. *)
Lemma handleCycleStatus_pointwise (serviceId : string) (st : AppState)
    (i : nat) (arr : Arrangement.t) :
  arrangements st !! i = Some arr →
  ∃ arr',
    arrangements (handleCycleStatus serviceId st) !! i = Some arr'
    ∧ Arrangement.id arr' = Arrangement.id arr
    ∧ Arrangement.name arr' = Arrangement.name arr
    ∧ Arrangement.container arr' = Arrangement.container arr
    ∧ Arrangement.parentId arr' = Arrangement.parentId arr
    ∧ Arrangement.createdAt arr' = Arrangement.createdAt arr
    ∧ List.length (Arrangement.services arr') = List.length (Arrangement.services arr)
    ∧ (∀ j s, Arrangement.services arr !! j = Some s →
         (Arrangement.id arr = activeArrangementId st
          ∧ ExternalService.id s = serviceId →
          Arrangement.services arr' !! j
          = Some (withStatus s (nextStatus (ExternalService.evaluationStatus s))))
         ∧ (¬ (Arrangement.id arr = activeArrangementId st
               ∧ ExternalService.id s = serviceId) →
            Arrangement.services arr' !! j = Some s)).
Proof.
  intros Hi. exists (cycleStatusIn (activeArrangementId st) serviceId arr).
  split.
  { unfold handleCycleStatus; simpl. change (map ?f ?l) with (f <$> l).
    by rewrite list_lookup_fmap, Hi. }
  destruct (decide (Arrangement.id arr = activeArrangementId st)) as [E|E].
  - rewrite cycleStatusIn_same by done. simpl.
    do 5 (split; [reflexivity|]). split; [apply length_map|].
    intros j s Hj. change (map ?f ?l) with (f <$> l).
    rewrite list_lookup_fmap, Hj; simpl. split.
    + intros [_ Hs]. by rewrite cycleService_same.
    + intros Hn. rewrite cycleService_other; [done|]. intros Hs. by apply Hn.
  - rewrite cycleStatusIn_other by done.
    do 6 (split; [reflexivity|]). intros j s Hj. split.
    + intros [Ha _]. by destruct E.
    + done.
Qed.

Lemma find_id_none (serviceId : string) (l : list ExternalService.t) :
  List.find (fun s => String.eqb (ExternalService.id s) serviceId) l = None
  ↔ ∀ s, s ∈ l → ExternalService.id s ≠ serviceId.
Proof.
  rewrite find_none. split; intros H s Hs; apply String.eqb_neq; by apply H.
Qed.

Lemma find_id_some (serviceId : string) (l : list ExternalService.t) :
  (∃ s, s ∈ l ∧ ExternalService.id s = serviceId) →
  ∃ s, List.find (fun s => String.eqb (ExternalService.id s) serviceId) l = Some s.
Proof.
  intros (s & Hs & Hid).
  destruct (List.find _ l) as [s'|] eqn:E; [by exists s'|].
  by destruct (proj1 (find_id_none serviceId l) E s Hs).
Qed.

Lemma find_id_first (serviceId : string) (before after : list ExternalService.t)
    (s : ExternalService.t) :
  (∀ x, x ∈ before → ExternalService.id x ≠ serviceId) →
  ExternalService.id s = serviceId →
  List.find (fun s => String.eqb (ExternalService.id s) serviceId)
            (before ++ s :: after) = Some s.
Proof.
  intros Hb Hs. apply find_first.
  - intros x Hx. apply String.eqb_neq. by apply Hb.
  - by apply String.eqb_eq.
Qed.

Lemma elem_of_filter_other_id (serviceId : string) (l : list ExternalService.t)
    (s : ExternalService.t) :
  s ∈ List.filter (fun s => negb (String.eqb (ExternalService.id s) serviceId)) l
  ↔ s ∈ l ∧ ExternalService.id s ≠ serviceId.
Proof.
  rewrite !list_elem_of_In, filter_In, negb_true_iff, String.eqb_neq. done.
Qed.

Lemma handleCycleStatus_frame (serviceId : string) (st : AppState) (i : nat)
    (a : Arrangement.t) :
  arrangements st !! i = Some a →
  Arrangement.id a ≠ activeArrangementId st →
  arrangements (handleCycleStatus serviceId st) !! i = Some a.
Proof.
  intros Hi Hne. apply map_lookup_fixed; [done|]. by apply cycleStatusIn_other.
Qed.

Lemma handleUpdateHypothesis_frame (text : string) (st : AppState) (i : nat)
    (a : Arrangement.t) :
  arrangements st !! i = Some a →
  Arrangement.id a ≠ activeArrangementId st →
  arrangements (handleUpdateHypothesis text st) !! i = Some a.
Proof.
  intros Hi Hne. apply map_lookup_fixed; [done|]. by apply updateHypothesisIn_other.
Qed.

Lemma handleToggleService_frame (catalog : list ExternalService.t)
    (serviceId : string) (st : AppState) (i : nat) (a : Arrangement.t) :
  arrangements st !! i = Some a →
  Arrangement.id a ≠ activeArrangementId st →
  arrangements (handleToggleService catalog serviceId st) !! i = Some a.
Proof.
  intros Hi Hne. apply map_lookup_fixed; [done|]. by apply toggleServiceIn_other.
Qed.

Lemma arr_id_inj (t1 t2 : N) : "arr-" +:+ pretty t1 = "arr-" +:+ pretty t2 → t1 = t2.
Proof. intros H. apply String.app_inj in H. by apply pretty_N_inj in H. Qed.

Lemma cont_id_inj (t1 t2 : N) :
  "cont-" +:+ pretty t1 = "cont-" +:+ pretty t2 → t1 = t2.
Proof. intros H. apply String.app_inj in H. by apply pretty_N_inj in H. Qed.

(** What [handleFork] builds.  With an active arrangement, it appends one
    arrangement to the collection, which it leaves otherwise as it was, and
    makes the id of the new arrangement the active id.  The new id is the text
    arr- followed by the clock reading in decimal: it differs from every id of
    that form made from another reading, and when no arrangement of the
    collection has it the new arrangement is the active arrangement.  The
    parent id is the id of the source; the container has the id cont- followed
    by the clock reading, the label of the source followed by .1, the
    placeholder hypothesis and the rules of the source. *)
Theorem handleFork_spec (now1 now2 now3 : N) (st : AppState)
    (source : Arrangement.t) :
  activeArrangement st = Some source →
  ∃ fork st',
    handleFork now1 now2 now3 st = Some st'
    ∧ arrangements st' = arrangements st ++ [fork]
    ∧ activeArrangementId st' = Arrangement.id fork
    ∧ selectedEntity st' = selectedEntity st
    ∧ Arrangement.id fork = "arr-" +:+ pretty now1
    ∧ Arrangement.parentId fork = Some (Arrangement.id source)
    ∧ Arrangement.name fork = Arrangement.name source +:+ " (Fork)"
    ∧ Arrangement.createdAt fork = now3
    ∧ Arrangement.services fork = Arrangement.services source
    ∧ ContainerVersion.id (Arrangement.container fork) = "cont-" +:+ pretty now2
    ∧ ContainerVersion.versionLabel (Arrangement.container fork)
      = ContainerVersion.versionLabel (Arrangement.container source) +:+ ".1"
    ∧ ContainerVersion.hypothesis (Arrangement.container fork)
      = "Exploratory fork to test new boundary conditions."
    ∧ ContainerVersion.activeRules (Arrangement.container fork)
      = ContainerVersion.activeRules (Arrangement.container source)
    ∧ (∀ a t, a ∈ arrangements st →
              Arrangement.id a = "arr-" +:+ pretty t → t ≠ now1 →
              Arrangement.id a ≠ Arrangement.id fork)
    ∧ (∀ a t, a ∈ arrangements st →
              ContainerVersion.id (Arrangement.container a) = "cont-" +:+ pretty t →
              t ≠ now2 →
              ContainerVersion.id (Arrangement.container a)
              ≠ ContainerVersion.id (Arrangement.container fork))
    ∧ ((∀ a, a ∈ arrangements st → Arrangement.id a ≠ Arrangement.id fork) →
       activeArrangement st' = Some fork).
Proof.
  intros Hsrc. unfold handleFork. rewrite Hsrc.
  eexists. eexists. split; [reflexivity|]. simpl.
  rewrite map_spreadService.
  repeat (split; [reflexivity|]). split; [|split].
  - intros a t _ Ha Hne E. rewrite Ha in E. by apply arr_id_inj in E.
  - intros a t _ Ha Hne E. rewrite Ha in E. by apply cont_id_inj in E.
  - intros Hfresh. unfold activeArrangement; simpl. apply find_first.
    + intros x Hx. apply String.eqb_neq. by apply Hfresh.
    + by apply String.eqb_eq.
Qed.

(** A fork with an id of its own.  Let [A] be the active arrangement and
    [A'] its fork, made with an id other than the id of [A].  The fork holds the services of
    [A], value for value, and the rules of [A] in a container of its own.
    Cycling a status, toggling a service or updating the hypothesis in [A']
    leaves [A] as it was; selecting [A] again and doing the same in [A]
    leaves [A'] as it was. *)
Theorem fork_isolation (now1 now2 now3 : N) (st : AppState) (A : Arrangement.t) :
  activeArrangement st = Some A →
  Arrangement.id A ≠ "arr-" +:+ pretty now1 →
  ∃ A' st',
    handleFork now1 now2 now3 st = Some st'
    ∧ arrangements st' = arrangements st ++ [A']
    ∧ activeArrangementId st' = Arrangement.id A'
    ∧ Arrangement.parentId A' = Some (Arrangement.id A)
    ∧ Arrangement.services A' = map spreadService (Arrangement.services A)
    ∧ Arrangement.services A' = Arrangement.services A
    ∧ Arrangement.container A'
      = {| ContainerVersion.id := "cont-" +:+ pretty now2;
           ContainerVersion.versionLabel :=
             ContainerVersion.versionLabel (Arrangement.container A) +:+ ".1";
           ContainerVersion.hypothesis :=
             "Exploratory fork to test new boundary conditions.";
           ContainerVersion.activeRules :=
             ContainerVersion.activeRules (Arrangement.container A) |}
    ∧ (∀ i, arrangements st !! i = Some A →
         (∀ serviceId,
            arrangements (handleCycleStatus serviceId st') !! i = Some A)
         ∧ (∀ catalog serviceId,
              arrangements (handleToggleService catalog serviceId st') !! i
              = Some A)
         ∧ (∀ text, arrangements (handleUpdateHypothesis text st') !! i = Some A))
    ∧ (∀ serviceId,
         arrangements (handleCycleStatus serviceId st')
           !! List.length (arrangements st)
         = Some (withServices A'
                   (map (cycleService serviceId) (Arrangement.services A'))))
    ∧ (∀ serviceId,
         arrangements
           (handleCycleStatus serviceId
              (setActiveArrangementId (Arrangement.id A) st'))
           !! List.length (arrangements st) = Some A')
    ∧ (∀ catalog serviceId,
         arrangements
           (handleToggleService catalog serviceId
              (setActiveArrangementId (Arrangement.id A) st'))
           !! List.length (arrangements st) = Some A')
    ∧ (∀ text,
         arrangements
           (handleUpdateHypothesis text
              (setActiveArrangementId (Arrangement.id A) st'))
           !! List.length (arrangements st) = Some A').
Proof.
  intros HA Hne. unfold handleFork. rewrite HA.
  match goal with
  | |- ∃ A' st', Some (mkAppState (_ ++ [?a]) _ _) = Some st' ∧ _ =>
      set (A' := a)
  end.
  set (st1 := mkAppState (arrangements st ++ [A']) (Arrangement.id A')
                         (selectedEntity st)).
  exists A', st1.
  split; [reflexivity|]. split; [reflexivity|]. split; [reflexivity|].
  split; [reflexivity|]. split; [reflexivity|].
  split; [apply map_spreadService|]. split; [reflexivity|].
  assert (arrangements st1 !! List.length (arrangements st) = Some A') as Hlast
    by apply list_lookup_middle, eq_refl.
  assert (Arrangement.id A ≠ activeArrangementId st1) as Hne1 by exact Hne.
  assert (∀ id, Arrangement.id A' ≠ activeArrangementId (setActiveArrangementId id st1)
                ↔ Arrangement.id A' ≠ id) as Hsel by done.
  split; [|split; [|split; [|split]]].
  - intros i Hi.
    assert (arrangements st1 !! i = Some A) as Hi'
      by (by apply lookup_app_l_Some).
    split; [|split].
    + intros serviceId. exact (handleCycleStatus_frame _ st1 i A Hi' Hne1).
    + intros catalog serviceId.
      exact (handleToggleService_frame _ _ st1 i A Hi' Hne1).
    + intros text. exact (handleUpdateHypothesis_frame _ st1 i A Hi' Hne1).
  - intros serviceId. unfold handleCycleStatus.
    change (arrangements (mkAppState ?l _ _)) with l.
    change (map ?f ?l) with (f <$> l) at 1.
    rewrite list_lookup_fmap, Hlast. simpl.
    by rewrite cycleStatusIn_same.
  - intros serviceId.
    apply (handleCycleStatus_frame _ (setActiveArrangementId (Arrangement.id A) st1) _ A' Hlast).
    apply Hsel. intros E. apply Hne. by rewrite <- E.
  - intros catalog serviceId.
    apply (handleToggleService_frame _ _ (setActiveArrangementId (Arrangement.id A) st1) _ A' Hlast).
    apply Hsel. intros E. apply Hne. by rewrite <- E.
  - intros text.
    apply (handleUpdateHypothesis_frame _ (setActiveArrangementId (Arrangement.id A) st1) _ A' Hlast).
    apply Hsel. intros E. apply Hne. by rewrite <- E.
Qed.

(** ** Comparison: lemmas *)

(** Membership in the [Set] of the ids of a service array. *)
Lemma elem_of_idSet (services : list ExternalService.t) (id : string) :
  id ∈ (list_to_set (map ExternalService.id services) : gset string)
  ↔ ∃ s, s ∈ services ∧ ExternalService.id s = id.
Proof.
  rewrite elem_of_list_to_set. change (map ?f ?l) with (f <$> l).
  rewrite list_elem_of_fmap. split; intros (s & H1 & H2); exists s; done.
Qed.

Lemma elem_of_filter_bool {A} (f : A → bool) (l : list A) (a : A) :
  a ∈ List.filter f l ↔ a ∈ l ∧ f a = true.
Proof. by rewrite !list_elem_of_In, filter_In. Qed.

Lemma filter_split_Permutation {A} (f : A → bool) (l : list A) :
  List.filter (fun a => negb (f a)) l ++ List.filter f l ≡ₚ l.
Proof.
  induction l as [|a l IH]; simpl; [done|].
  destruct (f a); simpl.
  - rewrite <- Permutation_middle. by constructor.
  - by constructor.
Qed.

(** ** Comparison: theorems *)

(** C9, as amended.  With a second arrangement [B], the services of [A] are
    split by id: [uniqueToA] holds those whose id no service of [B] has,
    [commonServices] those whose id some service of [B] has, both taken from
    [A]; [uniqueToB] holds the services of [B] whose id no service of [A] has;
    no id occurs in two of the three lists.  Each rule list is the evaluation
    of the rules of an arrangement on its own services.  Without [B] the three
    service lists and the rule list of [B] are empty, and the rule list of [A]
    is still the evaluation of the rules of [A]. *)
Theorem compare_spec (A : Arrangement.t) (B : option Arrangement.t) :
  match B with
  | Some b =>
      let c := ComparisonView.compare A (Some b) in
      (∀ s, s ∈ ComparisonView.uniqueToA c
            ↔ s ∈ Arrangement.services A
              ∧ ¬ ∃ s', s' ∈ Arrangement.services b
                        ∧ ExternalService.id s' = ExternalService.id s)
      ∧ (∀ s, s ∈ ComparisonView.uniqueToB c
              ↔ s ∈ Arrangement.services b
                ∧ ¬ ∃ s', s' ∈ Arrangement.services A
                          ∧ ExternalService.id s' = ExternalService.id s)
      ∧ (∀ s, s ∈ ComparisonView.commonServices c
              ↔ s ∈ Arrangement.services A
                ∧ ∃ s', s' ∈ Arrangement.services b
                        ∧ ExternalService.id s' = ExternalService.id s)
      ∧ (∀ x y, x ∈ ComparisonView.uniqueToA c → y ∈ ComparisonView.uniqueToB c →
                ExternalService.id x ≠ ExternalService.id y)
      ∧ (∀ x y, x ∈ ComparisonView.uniqueToA c →
                y ∈ ComparisonView.commonServices c →
                ExternalService.id x ≠ ExternalService.id y)
      ∧ (∀ x y, x ∈ ComparisonView.uniqueToB c →
                y ∈ ComparisonView.commonServices c →
                ExternalService.id x ≠ ExternalService.id y)
      ∧ ComparisonView.uniqueToA c ++ ComparisonView.commonServices c
        ≡ₚ Arrangement.services A
      ∧ ComparisonView.evaluatedRulesA c = getEvaluatedRules A
      ∧ ComparisonView.evaluatedRulesB c = getEvaluatedRules b
  | None =>
      let c := ComparisonView.compare A None in
      ComparisonView.uniqueToA c = []
      ∧ ComparisonView.uniqueToB c = []
      ∧ ComparisonView.commonServices c = []
      ∧ ComparisonView.evaluatedRulesB c = []
      ∧ ComparisonView.evaluatedRulesA c = getEvaluatedRules A
  end.
Proof.
  destruct B as [b|]; [|done]. simpl.
  assert (∀ s, s ∈ List.filter
                 (fun s => negb (bool_decide
                    (ExternalService.id s
                       ∈ (list_to_set (map ExternalService.id (Arrangement.services b))
                          : gset string))))
                 (Arrangement.services A)
               ↔ s ∈ Arrangement.services A
                 ∧ ¬ ∃ s', s' ∈ Arrangement.services b
                           ∧ ExternalService.id s' = ExternalService.id s) as HA.
  { intros s. by rewrite elem_of_filter_bool, negb_true_iff, bool_decide_eq_false,
      elem_of_idSet. }
  assert (∀ s, s ∈ List.filter
                 (fun s => negb (bool_decide
                    (ExternalService.id s
                       ∈ (list_to_set (map ExternalService.id (Arrangement.services A))
                          : gset string))))
                 (Arrangement.services b)
               ↔ s ∈ Arrangement.services b
                 ∧ ¬ ∃ s', s' ∈ Arrangement.services A
                           ∧ ExternalService.id s' = ExternalService.id s) as HB.
  { intros s. by rewrite elem_of_filter_bool, negb_true_iff, bool_decide_eq_false,
      elem_of_idSet. }
  assert (∀ s, s ∈ List.filter
                 (fun s => bool_decide
                    (ExternalService.id s
                       ∈ (list_to_set (map ExternalService.id (Arrangement.services b))
                          : gset string)))
                 (Arrangement.services A)
               ↔ s ∈ Arrangement.services A
                 ∧ ∃ s', s' ∈ Arrangement.services b
                         ∧ ExternalService.id s' = ExternalService.id s) as HC.
  { intros s. by rewrite elem_of_filter_bool, bool_decide_eq_true, elem_of_idSet. }
  split; [exact HA | split; [exact HB | split; [exact HC|]]].
  split; [|split; [|split; [|split; [|done]]]].
  - intros x y [Hx _]%HA [_ Hy]%HB E. apply Hy. by exists x.
  - intros x y [_ Hx]%HA [_ (s' & Hs' & Hy)]%HC E. apply Hx. exists s'.
    split; [done | congruence].
  - intros x y [_ Hx]%HB [Hy _]%HC E. apply Hx. by exists y.
  - apply filter_split_Permutation.
Qed.

(** ** The invariant on service ids *)

Lemma filter_sublist {A} (f : A → bool) (l : list A) :
  List.filter f l `sublist_of` l.
Proof.
  induction l as [|a l IH]; simpl; [done|].
  destruct (f a); by constructor.
Qed.

Lemma cycleService_ids (serviceId : string) (l : list ExternalService.t) :
  ExternalService.id <$> map (cycleService serviceId) l = ExternalService.id <$> l.
Proof.
  change (map ?f ?l) with (f <$> l).
  induction l as [|s l IH]; csimpl; [done|].
  by rewrite cycleService_id, IH.
Qed.

Lemma toggleServiceIn_unique (catalog : list ExternalService.t)
    (activeId serviceId : string) (arr : Arrangement.t) :
  UniqueServiceIds arr →
  UniqueServiceIds (toggleServiceIn catalog activeId serviceId arr).
Proof.
  unfold UniqueServiceIds, toggleServiceIn. intros H.
  destruct (negb _); [done|].
  destruct (List.find _ (Arrangement.services arr)) as [s|] eqn:Es; simpl.
  - eapply sublist_NoDup; [exact H|]. apply fmap_sublist, filter_sublist.
  - destruct (List.find _ catalog) as [t|] eqn:Et; simpl; [|done].
    rewrite fmap_app. apply NoDup_app. split; [done | split].
    + intros id Hid Ht. apply list_elem_of_singleton in Ht. simpl in Ht.
      apply find_some in Et as [_ Et]. apply String.eqb_eq in Et.
      apply list_elem_of_fmap in Hid as (s & -> & Hs).
      apply (proj1 (find_id_none serviceId _) Es s Hs). congruence.
    + apply NoDup_singleton.
Qed.

Lemma cycleStatusIn_unique (activeId serviceId : string) (arr : Arrangement.t) :
  UniqueServiceIds arr → UniqueServiceIds (cycleStatusIn activeId serviceId arr).
Proof.
  unfold UniqueServiceIds, cycleStatusIn. intros H.
  destruct (negb _); [done|]. simpl. by rewrite cycleService_ids.
Qed.

Lemma updateHypothesisIn_unique (activeId text : string) (arr : Arrangement.t) :
  UniqueServiceIds arr → UniqueServiceIds (updateHypothesisIn activeId text arr).
Proof. unfold UniqueServiceIds, updateHypothesisIn. by destruct (negb _). Qed.

(** Every handler keeps the service ids of every arrangement distinct, and the
    seed state has them distinct. *)
Lemma handlers_keep_service_ids_unique (st : AppState) :
  Forall UniqueServiceIds (arrangements st) →
  (∀ catalog serviceId,
     Forall UniqueServiceIds
       (arrangements (handleToggleService catalog serviceId st)))
  ∧ (∀ serviceId,
       Forall UniqueServiceIds (arrangements (handleCycleStatus serviceId st)))
  ∧ (∀ text,
       Forall UniqueServiceIds (arrangements (handleUpdateHypothesis text st)))
  ∧ (∀ now1 now2 now3 st',
       handleFork now1 now2 now3 st = Some st' →
       Forall UniqueServiceIds (arrangements st')).
Proof.
  intros H. split; [|split; [|split]].
  - intros catalog serviceId. simpl. change (map ?f ?l) with (f <$> l).
    apply Forall_fmap. eapply Forall_impl; [exact H|].
    intros a. apply toggleServiceIn_unique.
  - intros serviceId. simpl. change (map ?f ?l) with (f <$> l).
    apply Forall_fmap. eapply Forall_impl; [exact H|].
    intros a. apply cycleStatusIn_unique.
  - intros text. simpl. change (map ?f ?l) with (f <$> l).
    apply Forall_fmap. eapply Forall_impl; [exact H|].
    intros a. apply updateHypothesisIn_unique.
  - intros now1 now2 now3 st'. unfold handleFork.
    destruct (activeArrangement st) as [src|] eqn:E; [|done].
    intros [= <-]. simpl. apply Forall_app. split; [done|].
    apply Forall_singleton. unfold UniqueServiceIds; simpl.
    rewrite map_spreadService.
    unfold activeArrangement in E. apply find_some in E as [Hin _].
    apply list_elem_of_In in Hin. by apply (proj1 (Forall_forall _ _) H).
Qed.

Lemma seed_service_ids_unique (now1 now2 : N) :
  Forall UniqueServiceIds (arrangements (Constants.initialState now1 now2)).
Proof.
  do 2 (apply Forall_cons_2;
          [unfold UniqueServiceIds; refine (bool_decide_unpack _ _);
           vm_compute; exact I|]).
  apply Forall_nil_2.
Qed.

(** ** The ids of the arrangements *)

Lemma toggleServiceIn_id (catalog : list ExternalService.t)
    (activeId serviceId : string) (arr : Arrangement.t) :
  Arrangement.id (toggleServiceIn catalog activeId serviceId arr)
  = Arrangement.id arr.
Proof.
  unfold toggleServiceIn. destruct (negb _); [done|].
  destruct (List.find _ (Arrangement.services arr)); [done|].
  by destruct (List.find _ catalog).
Qed.

Lemma updateHypothesisIn_id (activeId text : string) (arr : Arrangement.t) :
  Arrangement.id (updateHypothesisIn activeId text arr) = Arrangement.id arr.
Proof. unfold updateHypothesisIn. by destruct (negb _). Qed.

Lemma fmap_id_preserved (f : Arrangement.t → Arrangement.t)
    (l : list Arrangement.t) :
  (∀ a, Arrangement.id (f a) = Arrangement.id a) →
  Arrangement.id <$> map f l = Arrangement.id <$> l.
Proof.
  intros H. change (map ?f ?l) with (f <$> l).
  induction l as [|a l IH]; csimpl; [done|]. by rewrite H, IH.
Qed.

(** X24. Toggling, updating and cycling keep the ids of the collection; a
    fork adds the id arr- followed by the clock reading, so the ids stay
    distinct as long as that id is not in use. *)
Lemma handlers_arrangement_ids (st : AppState) :
  (∀ catalog serviceId,
     Arrangement.id <$> arrangements (handleToggleService catalog serviceId st)
     = Arrangement.id <$> arrangements st)
  ∧ (∀ serviceId,
       Arrangement.id <$> arrangements (handleCycleStatus serviceId st)
       = Arrangement.id <$> arrangements st)
  ∧ (∀ text,
       Arrangement.id <$> arrangements (handleUpdateHypothesis text st)
       = Arrangement.id <$> arrangements st)
  ∧ (∀ now1 now2 now3 st',
       handleFork now1 now2 now3 st = Some st' →
       Arrangement.id <$> arrangements st'
       = (Arrangement.id <$> arrangements st) ++ ["arr-" +:+ pretty now1]
       ∧ (NoDup (Arrangement.id <$> arrangements st) →
          "arr-" +:+ pretty now1 ∉ Arrangement.id <$> arrangements st →
          NoDup (Arrangement.id <$> arrangements st'))).
Proof.
  split; [|split; [|split]].
  - intros catalog serviceId. apply fmap_id_preserved.
    intros a. apply toggleServiceIn_id.
  - intros serviceId. apply fmap_id_preserved. intros a. apply cycleStatusIn_id.
  - intros text. apply fmap_id_preserved. intros a. apply updateHypothesisIn_id.
  - intros now1 now2 now3 st'. unfold handleFork.
    destruct (activeArrangement st) as [src|]; [|done].
    intros [= <-]. simpl. rewrite fmap_app. split; [done|].
    intros Hnd Hfresh. apply NoDup_app. split; [done | split].
    + intros x Hx Hx'. apply list_elem_of_singleton in Hx'. by subst.
    + apply NoDup_singleton.
Qed.

(** ** Rule evaluation: further properties *)

Lemma existsb_status_false (v : ValidationStatus.t) (l : list ExternalService.t) :
  existsb (fun s => bool_decide (ExternalService.evaluationStatus s = v)) l = false
  ↔ ∀ s, s ∈ l → ExternalService.evaluationStatus s ≠ v.
Proof.
  rewrite <- not_true_iff_false, existsb_status. split.
  - intros H s Hs E. apply H. by exists s.
  - intros H (s & Hs & E). by apply (H s).
Qed.

(** The four ways [evaluateRule] reaches its verdict. *)
Lemma evaluateRule_status_cases (rule : Rule.t) (services : list ExternalService.t) :
  let relevant := List.filter (claimsMetric rule) services in
  (relevant = []
   ∧ EvaluatedRule.status (evaluateRule rule services)
     = if bool_decide (Rule.severity rule = Severity.CRITICAL)
       then RuleStatus.VIOLATED else RuleStatus.NOT_EVALUABLE)
  ∨ (relevant ≠ []
     ∧ (∃ s, s ∈ relevant
             ∧ ExternalService.evaluationStatus s = ValidationStatus.CONFLICT)
     ∧ EvaluatedRule.status (evaluateRule rule services) = RuleStatus.VIOLATED)
  ∨ (relevant ≠ []
     ∧ (∀ s, s ∈ relevant →
             ExternalService.evaluationStatus s ≠ ValidationStatus.CONFLICT)
     ∧ (∃ s, s ∈ relevant
             ∧ ExternalService.evaluationStatus s = ValidationStatus.UNCERTAIN)
     ∧ EvaluatedRule.status (evaluateRule rule services) = RuleStatus.NOT_EVALUABLE)
  ∨ (relevant ≠ []
     ∧ (∀ s, s ∈ relevant →
             ExternalService.evaluationStatus s = ValidationStatus.VALIDATED)
     ∧ EvaluatedRule.status (evaluateRule rule services) = RuleStatus.SATISFIED).
Proof.
  intros relevant. unfold evaluateRule; simpl. fold relevant.
  destruct relevant as [|r0 rest] eqn:E; [by left | right].
  change (List.length (r0 :: rest) =? 0)%nat with false. cbv iota.
  destruct (existsb (fun s => bool_decide
              (ExternalService.evaluationStatus s = ValidationStatus.CONFLICT))
            (r0 :: rest)) eqn:Ec.
  { left. split; [done|]. split; [by apply existsb_status | done]. }
  right. pose proof (proj1 (existsb_status_false _ _) Ec) as Hc. clear Ec.
  destruct (existsb (fun s => bool_decide
              (ExternalService.evaluationStatus s = ValidationStatus.UNCERTAIN))
            (r0 :: rest)) eqn:Eu.
  { left. split; [done|]. split; [done|]. split; [by apply existsb_status | done]. }
  right. pose proof (proj1 (existsb_status_false _ _) Eu) as Hu. clear Eu.
  split; [done|]. split; [|done].
  intros s Hs. specialize (Hc s Hs). specialize (Hu s Hs).
  by destruct (ExternalService.evaluationStatus s).
Qed.

(** X1. The verdict read backwards.  A rule is SATISFIED exactly when some
    service is relevant and every relevant service is VALIDATED; it is
    VIOLATED exactly when a relevant service is in CONFLICT, or the rule is
    CRITICAL and no service is relevant.  In particular a rule with no
    matching service is never SATISFIED, and a WARNING rule is VIOLATED only
    by a conflict. *)
Theorem evaluateRule_verdict_iff (rule : Rule.t) (services : list ExternalService.t) :
  (EvaluatedRule.status (evaluateRule rule services) = RuleStatus.SATISFIED
   ↔ (∃ s, s ∈ services ∧ Relevant rule s)
     ∧ ∀ s, s ∈ services → Relevant rule s →
            ExternalService.evaluationStatus s = ValidationStatus.VALIDATED)
  ∧ (EvaluatedRule.status (evaluateRule rule services) = RuleStatus.VIOLATED
     ↔ (∃ s, s ∈ services ∧ Relevant rule s
             ∧ ExternalService.evaluationStatus s = ValidationStatus.CONFLICT)
       ∨ ((∀ s, s ∈ services → ¬ Relevant rule s)
          ∧ Rule.severity rule = Severity.CRITICAL))
  ∧ (EvaluatedRule.matchingServices (evaluateRule rule services) = [] →
     EvaluatedRule.status (evaluateRule rule services) ≠ RuleStatus.SATISFIED).
Proof.
  pose proof (evaluateRule_status_cases rule services) as Hcases.
  cbv zeta in Hcases.
  pose proof (relevantServices_nil rule services) as Hnil.
  pose proof (elem_of_relevantServices rule services) as Hrel.
  set (relevant := List.filter (claimsMetric rule) services) in *.
  assert (relevant ≠ [] → ∃ s, s ∈ services ∧ Relevant rule s) as Hne.
  { intros H. destruct relevant as [|r0 rest] eqn:E; [done|].
    exists r0. apply Hrel. apply list_elem_of_here. }
  assert (EvaluatedRule.status (evaluateRule rule services) = RuleStatus.SATISFIED
          ↔ (∃ s, s ∈ services ∧ Relevant rule s)
            ∧ ∀ s, s ∈ services → Relevant rule s →
                   ExternalService.evaluationStatus s = ValidationStatus.VALIDATED)
    as Hsat.
  { split.
    - intros Hs.
      destruct Hcases as [[E H]|[(_ & _ & H)|[(_ & _ & _ & H)|(Hn & Hall & _)]]];
        try (rewrite H in Hs; discriminate Hs).
      + rewrite H in Hs. by destruct (bool_decide _).
      + split; [by apply Hne|]. intros s Hin Hr. apply Hall. by apply Hrel.
    - intros [(s0 & Hin0 & Hr0) Hall].
      assert (s0 ∈ relevant) as H0 by (by apply Hrel).
      destruct Hcases as [[E _]|[(_ & (s & Hs & Es) & _)|
                                [(_ & _ & (s & Hs & Es) & _)|(_ & _ & H)]]].
      + rewrite E in H0. by apply not_elem_of_nil in H0.
      + apply Hrel in Hs as [Hs Hr]. by rewrite (Hall s Hs Hr) in Es.
      + apply Hrel in Hs as [Hs Hr]. by rewrite (Hall s Hs Hr) in Es.
      + done. }
  split; [exact Hsat | split].
  - split.
    + intros Hv.
      destruct Hcases as [[E H]|[(_ & (s & Hs & Es) & _)|
                                [(_ & _ & _ & H)|(_ & _ & H)]]];
        try (rewrite H in Hv; discriminate Hv).
      * right. split; [by apply Hnil|]. rewrite H in Hv.
        destruct (bool_decide _) eqn:B; [|discriminate Hv].
        by apply bool_decide_eq_true in B.
      * left. exists s. apply Hrel in Hs as [Hs Hr]. done.
    + intros [(s & Hs & Hr & Es) | [Hnone Hcrit]].
      * assert (s ∈ relevant) as H0 by (by apply Hrel).
        destruct Hcases as [[E _]|[(_ & _ & H)|
                                  [(_ & Hno & _)|(_ & Hall & _)]]].
        -- rewrite E in H0. by apply not_elem_of_nil in H0.
        -- done.
        -- by destruct (Hno s H0).
        -- by rewrite (Hall s H0) in Es.
      * apply Hnil in Hnone.
        destruct Hcases as [[_ H]|[(Hn & _)|[(Hn & _)|(Hn & _)]]];
          try (by destruct Hn).
        rewrite H. by rewrite bool_decide_eq_true_2.
  - intros Hm Hs. apply Hsat in Hs as [(s & Hin & Hr) _].
    assert (s ∈ relevant) as H0 by (by apply Hrel).
    unfold evaluateRule in Hm; simpl in Hm. fold relevant in Hm.
    destruct relevant; [by apply not_elem_of_nil in H0 | discriminate Hm].
Qed.

Lemma filter_Permutation {A} (f : A → bool) (l l' : list A) :
  l ≡ₚ l' → List.filter f l ≡ₚ List.filter f l'.
Proof.
  induction 1 as [|x l l' _ IH|x y l|l l' l'' _ IH1 _ IH2]; simpl.
  - done.
  - destruct (f x); [by constructor | done].
  - destruct (f x), (f y); try done. apply perm_swap.
  - by etrans.
Qed.

Lemma existsb_Permutation {A} (f : A → bool) (l l' : list A) :
  l ≡ₚ l' → existsb f l = existsb f l'.
Proof.
  induction 1 as [|x l l' _ IH|x y l|l l' l'' _ IH1 _ IH2]; simpl.
  - done.
  - by rewrite IH.
  - by destruct (f x), (f y).
  - by etrans.
Qed.

(** X2. The verdict does not depend on the order of the services: a
    rearrangement of the services gives the same status, and the same
    matching names up to order. *)
Theorem evaluateRule_Permutation (rule : Rule.t)
    (services services' : list ExternalService.t) :
  services ≡ₚ services' →
  EvaluatedRule.status (evaluateRule rule services)
  = EvaluatedRule.status (evaluateRule rule services')
  ∧ EvaluatedRule.matchingServices (evaluateRule rule services)
    ≡ₚ EvaluatedRule.matchingServices (evaluateRule rule services').
Proof.
  intros H. pose proof (filter_Permutation (claimsMetric rule) _ _ H) as Hf.
  unfold evaluateRule; simpl. split.
  - rewrite (Permutation_length Hf).
    by rewrite !(existsb_Permutation _ _ _ Hf).
  - change (map ?f ?l) with (f <$> l). by apply fmap_Permutation.
Qed.

(** X3. A service that is not relevant for the rule (the lower-cased matcher
    occurs in none of its lower-cased metrics) plays no part: the evaluation
    with it, at any position, is the evaluation without it. *)
Theorem evaluateRule_irrelevant (rule : Rule.t)
    (before after : list ExternalService.t) (s : ExternalService.t) :
  ¬ Relevant rule s →
  evaluateRule rule (before ++ s :: after) = evaluateRule rule (before ++ after).
Proof.
  intros H. apply claimsMetric_not_Relevant in H.
  unfold evaluateRule. rewrite !List.filter_app. simpl. by rewrite H.
Qed.

Lemma app_assoc_string (a b c : string) : (a +:+ b) +:+ c = a +:+ (b +:+ c).
Proof. induction a as [|x a IH]; [done|]. by rewrite !app_cons_string, IH. Qed.

Lemma Substring_trans (a b c : string) :
  Substring a b → Substring b c → Substring a c.
Proof.
  intros (p1 & q1 & ->) (p2 & q2 & ->). exists (p2 +:+ p1), (q1 +:+ q2).
  by rewrite !app_assoc_string.
Qed.

Lemma claimsMetric_antitone (rule1 rule2 : Rule.t) (s : ExternalService.t) :
  ContainsIgnoringCase (Rule.matcher rule2) (Rule.matcher rule1) →
  claimsMetric rule2 s = true → claimsMetric rule1 s = true.
Proof.
  intros Hm. unfold ContainsIgnoringCase in Hm.
  unfold claimsMetric. rewrite !existsb_exists.
  intros (metric & Hin & H). exists metric. split; [done|].
  apply includes_spec. apply includes_spec in H. by eapply Substring_trans.
Qed.

(** X4. A matcher whose lower-cased text occurs in the lower-cased text of
    another matcher matches at least as much: every service relevant for the
    longer matcher is relevant for the shorter one, and the names reported
    for the longer matcher are among those reported for the shorter one, in
    the same order. *)
Theorem evaluateRule_matcher_antitone (rule1 rule2 : Rule.t)
    (services : list ExternalService.t) :
  ContainsIgnoringCase (Rule.matcher rule2) (Rule.matcher rule1) →
  (∀ s, Relevant rule2 s → Relevant rule1 s)
  ∧ EvaluatedRule.matchingServices (evaluateRule rule2 services)
    `sublist_of` EvaluatedRule.matchingServices (evaluateRule rule1 services).
Proof.
  intros Hm. split.
  - intros s H. apply claimsMetric_Relevant.
    apply claimsMetric_Relevant in H. by eapply claimsMetric_antitone.
  - unfold evaluateRule; simpl.
    induction services as [|s l IH]; simpl; [done|].
    destruct (claimsMetric rule2 s) eqn:E2.
    + rewrite (claimsMetric_antitone rule1 rule2 s Hm E2). simpl.
      by apply sublist_skip.
    + destruct (claimsMetric rule1 s); simpl; [by apply sublist_cons | done].
Qed.

(** ** Version graph and evaluation: how they compose *)

Lemma claimsMetric_cycleService (rule : Rule.t) (serviceId : string)
    (s : ExternalService.t) :
  claimsMetric rule (cycleService serviceId s) = claimsMetric rule s.
Proof. unfold cycleService. by destruct (negb _). Qed.

Lemma name_cycleService (serviceId : string) (s : ExternalService.t) :
  ExternalService.name (cycleService serviceId s) = ExternalService.name s.
Proof. unfold cycleService. by destruct (negb _). Qed.

Lemma filter_map_commute {A} (f : A → bool) (g : A → A) (l : list A) :
  (∀ a, f (g a) = f a) →
  List.filter f (map g l) = map g (List.filter f l).
Proof.
  intros H. induction l as [|a l IH]; simpl; [done|].
  rewrite H. destruct (f a); simpl; by rewrite IH.
Qed.

Lemma matchingServices_cycleService (rule : Rule.t) (serviceId : string)
    (services : list ExternalService.t) :
  EvaluatedRule.matchingServices
    (evaluateRule rule (map (cycleService serviceId) services))
  = EvaluatedRule.matchingServices (evaluateRule rule services).
Proof.
  unfold evaluateRule; simpl.
  rewrite filter_map_commute by apply claimsMetric_cycleService.
  rewrite map_map. apply map_ext. intros s. apply name_cycleService.
Qed.

Lemma evaluateRule_conflict (rule : Rule.t) (services : list ExternalService.t)
    (s : ExternalService.t) :
  s ∈ services → claimsMetric rule s = true →
  ExternalService.evaluationStatus s = ValidationStatus.CONFLICT →
  EvaluatedRule.status (evaluateRule rule services) = RuleStatus.VIOLATED.
Proof.
  intros Hin Hc Es.
  assert (s ∈ List.filter (claimsMetric rule) services) as Hrel
    by (by apply elem_of_filter_bool).
  destruct (evaluateRule_status_cases rule services)
    as [[E _]|[(_ & _ & H)|[(_ & Hno & _)|(_ & Hall & _)]]].
  - rewrite E in Hrel. by apply not_elem_of_nil in Hrel.
  - done.
  - by destruct (Hno s Hrel).
  - by rewrite (Hall s Hrel) in Es.
Qed.

(** X5. Cycling a status never changes which services a rule reports: in
    every arrangement of the collection, each evaluated rule keeps its id and
    its matching services; only verdicts can move. *)
Theorem handleCycleStatus_keeps_matchingServices (serviceId : string)
    (st : AppState) (i : nat) (arr : Arrangement.t) :
  arrangements st !! i = Some arr →
  ∃ arr',
    arrangements (handleCycleStatus serviceId st) !! i = Some arr'
    ∧ (EvaluatedRule.matchingServices <$> getEvaluatedRules arr')
      = (EvaluatedRule.matchingServices <$> getEvaluatedRules arr)
    ∧ (EvaluatedRule.id <$> getEvaluatedRules arr')
      = (EvaluatedRule.id <$> getEvaluatedRules arr).
Proof.
  intros Hi. exists (cycleStatusIn (activeArrangementId st) serviceId arr).
  split.
  { unfold handleCycleStatus; simpl. change (map ?f ?l) with (f <$> l).
    by rewrite list_lookup_fmap, Hi. }
  unfold cycleStatusIn. destruct (negb _); [done|].
  unfold getEvaluatedRules; simpl. change (map ?f ?l) with (f <$> l).
  rewrite <- !list_fmap_compose. split; [|done].
  apply list_fmap_ext. intros j rule _. simpl.
  apply matchingServices_cycleService.
Qed.

(** X6. Cycling a VALIDATED service once puts it in CONFLICT, so every rule
    of the active arrangement for which that service is relevant becomes
    VIOLATED, whatever the other services say. *)
Theorem handleCycleStatus_violates (serviceId : string) (st : AppState)
    (i : nat) (arr : Arrangement.t) (s : ExternalService.t) (rule : Rule.t) :
  arrangements st !! i = Some arr →
  Arrangement.id arr = activeArrangementId st →
  s ∈ Arrangement.services arr →
  ExternalService.id s = serviceId →
  ExternalService.evaluationStatus s = ValidationStatus.VALIDATED →
  Relevant rule s →
  ∃ arr',
    arrangements (handleCycleStatus serviceId st) !! i = Some arr'
    ∧ EvaluatedRule.status (evaluateRule rule (Arrangement.services arr'))
      = RuleStatus.VIOLATED.
Proof.
  intros Hi Hid Hs Hsid Hv Hrel.
  exists (cycleStatusIn (activeArrangementId st) serviceId arr). split.
  { unfold handleCycleStatus; simpl. change (map ?f ?l) with (f <$> l).
    by rewrite list_lookup_fmap, Hi. }
  rewrite cycleStatusIn_same by done. simpl.
  apply (evaluateRule_conflict rule _ (cycleService serviceId s)).
  - change (map ?f ?l) with (f <$> l). by apply list_elem_of_fmap_2.
  - rewrite claimsMetric_cycleService. by apply claimsMetric_Relevant.
  - rewrite cycleService_same by done. simpl. by rewrite Hv.
Qed.

(** ** Hypothesis edits *)

Lemma updateHypothesisIn_same (activeId text : string) (arr : Arrangement.t) :
  Arrangement.id arr = activeId →
  updateHypothesisIn activeId text arr
  = {| Arrangement.id := Arrangement.id arr;
       Arrangement.name := Arrangement.name arr;
       Arrangement.container :=
         {| ContainerVersion.id := ContainerVersion.id (Arrangement.container arr);
            ContainerVersion.versionLabel :=
              ContainerVersion.versionLabel (Arrangement.container arr);
            ContainerVersion.hypothesis := text;
            ContainerVersion.activeRules :=
              ContainerVersion.activeRules (Arrangement.container arr) |};
       Arrangement.services := Arrangement.services arr;
       Arrangement.parentId := Arrangement.parentId arr;
       Arrangement.createdAt := Arrangement.createdAt arr |}.
Proof.
  intros H. unfold updateHypothesisIn. by rewrite (proj2 (String.eqb_eq _ _) H).
Qed.

Lemma updateHypothesisIn_services (activeId text : string) (arr : Arrangement.t) :
  Arrangement.services (updateHypothesisIn activeId text arr)
  = Arrangement.services arr.
Proof. unfold updateHypothesisIn. by destruct (negb _). Qed.

Lemma updateHypothesisIn_rules (activeId text : string) (arr : Arrangement.t) :
  ContainerVersion.activeRules
    (Arrangement.container (updateHypothesisIn activeId text arr))
  = ContainerVersion.activeRules (Arrangement.container arr).
Proof. unfold updateHypothesisIn. by destruct (negb _). Qed.

(** X7. [handleUpdateHypothesis] keeps the length and order of the
    collection.  An arrangement with the active id gets the new text as its
    hypothesis and keeps everything else: id, name, services, parent, rules,
    label and container id; an arrangement with another id is returned as it
    was.  No evaluated rule of any arrangement changes. *)
Theorem handleUpdateHypothesis_spec (text : string) (st : AppState) (i : nat)
    (arr : Arrangement.t) :
  arrangements st !! i = Some arr →
  ∃ arr',
    arrangements (handleUpdateHypothesis text st) !! i = Some arr'
    ∧ (Arrangement.id arr ≠ activeArrangementId st → arr' = arr)
    ∧ (Arrangement.id arr = activeArrangementId st →
       ContainerVersion.hypothesis (Arrangement.container arr') = text)
    ∧ Arrangement.id arr' = Arrangement.id arr
    ∧ Arrangement.name arr' = Arrangement.name arr
    ∧ Arrangement.services arr' = Arrangement.services arr
    ∧ Arrangement.parentId arr' = Arrangement.parentId arr
    ∧ Arrangement.createdAt arr' = Arrangement.createdAt arr
    ∧ ContainerVersion.id (Arrangement.container arr')
      = ContainerVersion.id (Arrangement.container arr)
    ∧ ContainerVersion.versionLabel (Arrangement.container arr')
      = ContainerVersion.versionLabel (Arrangement.container arr)
    ∧ ContainerVersion.activeRules (Arrangement.container arr')
      = ContainerVersion.activeRules (Arrangement.container arr)
    ∧ getEvaluatedRules arr' = getEvaluatedRules arr.
Proof.
  intros Hi. exists (updateHypothesisIn (activeArrangementId st) text arr).
  split.
  { unfold handleUpdateHypothesis; simpl. change (map ?f ?l) with (f <$> l).
    by rewrite list_lookup_fmap, Hi. }
  split; [apply updateHypothesisIn_other|].
  split; [intros E; by rewrite updateHypothesisIn_same|].
  unfold getEvaluatedRules.
  rewrite updateHypothesisIn_services, updateHypothesisIn_rules.
  unfold updateHypothesisIn. by destruct (negb _).
Qed.

(** Side conditions on the id of an edited arrangement. *)
Ltac solve_edited_id :=
  by rewrite ?updateHypothesisIn_id, ?cycleStatusIn_id, ?toggleServiceIn_id.

Lemma updateHypothesisIn_twice (activeId text1 text2 : string)
    (arr : Arrangement.t) :
  updateHypothesisIn activeId text2 (updateHypothesisIn activeId text1 arr)
  = updateHypothesisIn activeId text2 arr.
Proof.
  destruct (decide (Arrangement.id arr = activeId)) as [E|E].
  - rewrite (updateHypothesisIn_same _ text1 arr E).
    by rewrite !updateHypothesisIn_same.
  - by rewrite !updateHypothesisIn_other by solve_edited_id.
Qed.

Lemma updateHypothesisIn_cycleStatusIn (activeId text serviceId : string)
    (arr : Arrangement.t) :
  updateHypothesisIn activeId text (cycleStatusIn activeId serviceId arr)
  = cycleStatusIn activeId serviceId (updateHypothesisIn activeId text arr).
Proof.
  destruct (decide (Arrangement.id arr = activeId)) as [E|E].
  - rewrite (cycleStatusIn_same _ _ arr E), (updateHypothesisIn_same _ _ arr E).
    by rewrite updateHypothesisIn_same, cycleStatusIn_same.
  - rewrite !cycleStatusIn_other by solve_edited_id.
    by rewrite !updateHypothesisIn_other by solve_edited_id.
Qed.

Lemma updateHypothesisIn_toggleServiceIn (catalog : list ExternalService.t)
    (activeId text serviceId : string) (arr : Arrangement.t) :
  updateHypothesisIn activeId text (toggleServiceIn catalog activeId serviceId arr)
  = toggleServiceIn catalog activeId serviceId (updateHypothesisIn activeId text arr).
Proof.
  destruct (decide (Arrangement.id arr = activeId)) as [E|E].
  - rewrite (updateHypothesisIn_same _ _ arr E). unfold toggleServiceIn.
    simpl. rewrite (proj2 (String.eqb_eq _ _) E). simpl.
    destruct (List.find _ (Arrangement.services arr)).
    + by rewrite updateHypothesisIn_same.
    + destruct (List.find _ catalog); by rewrite updateHypothesisIn_same.
  - rewrite (updateHypothesisIn_other _ _ arr E).
    rewrite !toggleServiceIn_other by solve_edited_id.
    by rewrite updateHypothesisIn_other.
Qed.

Lemma toggleDeselects_ext (st st' : AppState) (serviceId : string) :
  activeArrangementId st' = activeArrangementId st →
  selectedEntity st' = selectedEntity st →
  Forall2 (fun a' a => Arrangement.id a' = Arrangement.id a
                       ∧ Arrangement.services a' = Arrangement.services a)
          (arrangements st') (arrangements st) →
  toggleDeselects st' serviceId = toggleDeselects st serviceId.
Proof.
  intros Ha Hs Hl. unfold toggleDeselects. rewrite Ha, Hs. f_equal.
  induction Hl as [|a' a l' l [Hid Hsv] _ IH]; simpl; [done|].
  by rewrite Hid, Hsv, IH.
Qed.

(** X8. Hypothesis edits overwrite each other and are independent of service
    edits: a second update replaces the first, and updating the hypothesis
    before or after cycling a status or toggling a service gives the same
    state. *)
Theorem handleUpdateHypothesis_composes (catalog : list ExternalService.t)
    (text1 text2 serviceId : string) (st : AppState) :
  handleUpdateHypothesis text2 (handleUpdateHypothesis text1 st)
  = handleUpdateHypothesis text2 st
  ∧ handleUpdateHypothesis text1 (handleCycleStatus serviceId st)
    = handleCycleStatus serviceId (handleUpdateHypothesis text1 st)
  ∧ handleUpdateHypothesis text1 (handleToggleService catalog serviceId st)
    = handleToggleService catalog serviceId (handleUpdateHypothesis text1 st).
Proof.
  split; [|split].
  - unfold handleUpdateHypothesis; simpl. f_equal. rewrite map_map.
    apply map_ext. intros a. apply updateHypothesisIn_twice.
  - unfold handleUpdateHypothesis, handleCycleStatus; simpl. f_equal.
    rewrite !map_map. apply map_ext. intros a.
    apply updateHypothesisIn_cycleStatusIn.
  - assert (toggleDeselects (handleUpdateHypothesis text1 st) serviceId
            = toggleDeselects st serviceId) as Hd.
    { apply toggleDeselects_ext; try done. simpl.
      induction (arrangements st) as [|a l IH]; simpl; constructor; [|done].
      split; [apply updateHypothesisIn_id | apply updateHypothesisIn_services]. }
    unfold handleToggleService at 2. rewrite Hd.
    unfold handleUpdateHypothesis, handleToggleService; simpl.
    rewrite !map_map. f_equal. apply map_ext. intros a.
    apply updateHypothesisIn_toggleServiceIn.
Qed.

(** ** Toggling services *)

Lemma withServices_same (arr : Arrangement.t) :
  withServices arr (Arrangement.services arr) = arr.
Proof. by destruct arr. Qed.

Lemma filter_other_id_absent (serviceId : string) (l : list ExternalService.t) :
  (∀ s, s ∈ l → ExternalService.id s ≠ serviceId) →
  List.filter (fun s => negb (String.eqb (ExternalService.id s) serviceId)) l = l.
Proof.
  induction l as [|s l IH]; intros H; simpl; [done|].
  rewrite eqb_id_false by (apply H, list_elem_of_here).
  rewrite IH; [done|]. intros x Hx. apply H. by apply list_elem_of_further.
Qed.

Lemma toggleServiceIn_present (catalog : list ExternalService.t)
    (activeId serviceId : string) (arr : Arrangement.t) :
  Arrangement.id arr = activeId →
  (∃ s, s ∈ Arrangement.services arr ∧ ExternalService.id s = serviceId) →
  toggleServiceIn catalog activeId serviceId arr
  = withServices arr
      (List.filter (fun s => negb (String.eqb (ExternalService.id s) serviceId))
                   (Arrangement.services arr)).
Proof.
  intros Hid Hex. unfold toggleServiceIn.
  rewrite (proj2 (String.eqb_eq _ _) Hid); simpl.
  by destruct (find_id_some _ _ Hex) as [s' ->].
Qed.

Lemma toggleServiceIn_absent (catalog : list ExternalService.t)
    (activeId serviceId : string) (arr : Arrangement.t) :
  Arrangement.id arr = activeId →
  (∀ s, s ∈ Arrangement.services arr → ExternalService.id s ≠ serviceId) →
  toggleServiceIn catalog activeId serviceId arr
  = match List.find (fun s => String.eqb (ExternalService.id s) serviceId)
                    catalog with
    | Some svcTemplate =>
        withServices arr (Arrangement.services arr ++ [svcTemplate])
    | None => arr
    end.
Proof.
  intros Hid Habs. unfold toggleServiceIn.
  rewrite (proj2 (String.eqb_eq _ _) Hid); simpl.
  rewrite (proj2 (find_id_none _ _) Habs).
  destruct (List.find _ catalog); [by rewrite spreadService_eq | done].
Qed.

Lemma toggleServiceIn_twice_absent (catalog : list ExternalService.t)
    (activeId serviceId : string) (arr : Arrangement.t) :
  (∀ s, s ∈ Arrangement.services arr → ExternalService.id s ≠ serviceId) →
  toggleServiceIn catalog activeId serviceId
    (toggleServiceIn catalog activeId serviceId arr) = arr.
Proof.
  intros Habs. destruct (decide (Arrangement.id arr = activeId)) as [E|E].
  - rewrite (toggleServiceIn_absent catalog _ _ arr E Habs).
    destruct (List.find _ catalog) as [t|] eqn:Et.
    + apply find_some in Et as [_ Et]. apply String.eqb_eq in Et.
      rewrite toggleServiceIn_present.
      * simpl. rewrite List.filter_app, filter_other_id_absent by done.
        simpl. rewrite (proj2 (String.eqb_eq _ _) Et). simpl.
        rewrite app_nil_r. destruct arr; reflexivity.
      * done.
      * exists t. split; [|done]. simpl. apply elem_of_app. right.
        apply list_elem_of_here.
    + by rewrite toggleServiceIn_absent, Et.
  - by rewrite !toggleServiceIn_other by solve_edited_id.
Qed.

(** X9. Adding then removing is a round trip: when the service is not in an
    arrangement, toggling it twice gives the arrangement back as it was,
    whether the catalog knows the id or not. *)
Theorem handleToggleService_on_off (catalog : list ExternalService.t)
    (serviceId : string) (st : AppState) (i : nat) (arr : Arrangement.t) :
  arrangements st !! i = Some arr →
  (∀ s, s ∈ Arrangement.services arr → ExternalService.id s ≠ serviceId) →
  arrangements
    (handleToggleService catalog serviceId
       (handleToggleService catalog serviceId st)) !! i = Some arr.
Proof.
  intros Hi Habs. unfold handleToggleService; simpl.
  change (map ?f ?l) with (f <$> l). rewrite !list_lookup_fmap, Hi. simpl.
  by rewrite toggleServiceIn_twice_absent.
Qed.

(** X10. Removing then adding is not a round trip: when an arrangement with
    the active id holds the service, toggling twice leaves the other services
    in place and puts the first catalog entry with that id at the end, with
    the status of the catalog; when the catalog has no such entry the service
    stays removed. *)
Theorem handleToggleService_off_on (catalog : list ExternalService.t)
    (serviceId : string) (st : AppState) (i : nat) (arr : Arrangement.t) :
  arrangements st !! i = Some arr →
  Arrangement.id arr = activeArrangementId st →
  (∃ s, s ∈ Arrangement.services arr ∧ ExternalService.id s = serviceId) →
  arrangements
    (handleToggleService catalog serviceId
       (handleToggleService catalog serviceId st)) !! i
  = Some (withServices arr
            (List.filter
               (fun s => negb (String.eqb (ExternalService.id s) serviceId))
               (Arrangement.services arr)
             ++ match List.find
                        (fun s => String.eqb (ExternalService.id s) serviceId)
                        catalog with
                | Some svcTemplate => [svcTemplate]
                | None => []
                end)).
Proof.
  intros Hi Hid Hex. unfold handleToggleService; simpl.
  change (map ?f ?l) with (f <$> l). rewrite !list_lookup_fmap, Hi. simpl.
  rewrite (toggleServiceIn_present catalog _ _ arr Hid Hex).
  rewrite toggleServiceIn_absent.
  - simpl. destruct (List.find _ catalog); [done|]. by rewrite app_nil_r.
  - done.
  - simpl. intros s Hs. by apply elem_of_filter_other_id in Hs as [_ Hs].
Qed.

Lemma isActive_true (arr : Arrangement.t) (svc : ExternalService.t) :
  isActive arr svc = true
  ↔ ∃ s, s ∈ Arrangement.services arr
         ∧ ExternalService.id s = ExternalService.id svc.
Proof.
  unfold isActive. rewrite existsb_exists. split; intros (s & Hs & E); exists s.
  - split; [by apply list_elem_of_In | by apply String.eqb_eq].
  - split; [by apply list_elem_of_In | by apply String.eqb_eq].
Qed.

Lemma isActive_false (arr : Arrangement.t) (svc : ExternalService.t) :
  isActive arr svc = false
  ↔ ∀ s, s ∈ Arrangement.services arr
         → ExternalService.id s ≠ ExternalService.id svc.
Proof.
  rewrite <- not_true_iff_false, isActive_true. split.
  - intros H s Hs E. apply H. by exists s.
  - intros H (s & Hs & E). by apply (H s).
Qed.

(** X11. A click on a palette entry flips its marker: for a service of the
    catalog, [isActive] in an arrangement with the active id after the toggle
    is the negation of [isActive] before. *)
Theorem handleToggleService_flips_isActive (catalog : list ExternalService.t)
    (svc : ExternalService.t) (st : AppState) (i : nat) (arr : Arrangement.t) :
  svc ∈ catalog →
  arrangements st !! i = Some arr →
  Arrangement.id arr = activeArrangementId st →
  ∃ arr',
    arrangements (handleToggleService catalog (ExternalService.id svc) st) !! i
    = Some arr'
    ∧ isActive arr' svc = negb (isActive arr svc).
Proof.
  intros Hcat Hi Hid. eexists. split.
  { unfold handleToggleService; simpl. change (map ?f ?l) with (f <$> l).
    by rewrite list_lookup_fmap, Hi. }
  destruct (isActive arr svc) eqn:E; simpl.
  - apply isActive_true in E.
    rewrite (toggleServiceIn_present catalog _ _ arr Hid E).
    apply isActive_false. simpl. intros s Hs.
    by apply elem_of_filter_other_id in Hs as [_ Hs].
  - pose proof (proj1 (isActive_false _ _) E) as Habs.
    rewrite (toggleServiceIn_absent catalog _ _ arr Hid Habs).
    destruct (find_id_some (ExternalService.id svc) catalog) as [t Ht];
      [by exists svc|].
    rewrite Ht. apply find_some in Ht as [_ Ht]. apply String.eqb_eq in Ht.
    apply isActive_true. exists t. split; [|done]. simpl.
    apply elem_of_app. right. apply list_elem_of_here.
Qed.

(** ** The inspector *)

Lemma find_map_preserved {A} (p : A → bool) (g : A → A) (l : list A) :
  (∀ a, p (g a) = p a) → List.find p (map g l) = g <$> List.find p l.
Proof.
  intros H. induction l as [|a l IH]; simpl; [done|].
  rewrite H. by destruct (p a).
Qed.

Lemma find_filter_keeps {A} (p q : A → bool) (l : list A) :
  (∀ a, p a = true → q a = true) → List.find p (List.filter q l) = List.find p l.
Proof.
  intros H. induction l as [|a l IH]; simpl; [done|].
  destruct (p a) eqn:Ep.
  - rewrite (H a Ep). simpl. by rewrite Ep.
  - destruct (q a); simpl; [by rewrite Ep | done].
Qed.

Lemma find_app_some {A} (p : A → bool) (l k : list A) (a : A) :
  List.find p l = Some a → List.find p (l ++ k) = Some a.
Proof.
  induction l as [|x l IH]; simpl; [done|]. by destruct (p x).
Qed.

Lemma activeArrangement_toggle (catalog : list ExternalService.t)
    (serviceId : string) (st : AppState) :
  activeArrangement (handleToggleService catalog serviceId st)
  = toggleServiceIn catalog (activeArrangementId st) serviceId
      <$> activeArrangement st.
Proof.
  unfold activeArrangement; simpl. apply find_map_preserved.
  intros a. by rewrite toggleServiceIn_id.
Qed.

Lemma activeArrangement_cycle (serviceId : string) (st : AppState) :
  activeArrangement (handleCycleStatus serviceId st)
  = cycleStatusIn (activeArrangementId st) serviceId <$> activeArrangement st.
Proof.
  unfold activeArrangement; simpl. apply find_map_preserved.
  intros a. by rewrite cycleStatusIn_id.
Qed.

Lemma activeArrangement_update (text : string) (st : AppState) :
  activeArrangement (handleUpdateHypothesis text st)
  = updateHypothesisIn (activeArrangementId st) text <$> activeArrangement st.
Proof.
  unfold activeArrangement; simpl. apply find_map_preserved.
  intros a. by rewrite updateHypothesisIn_id.
Qed.

Lemma activeArrangement_some (st : AppState) (a : Arrangement.t) :
  activeArrangement st = Some a →
  a ∈ arrangements st ∧ Arrangement.id a = activeArrangementId st.
Proof.
  unfold activeArrangement. intros H. apply find_some in H as [Hin Hid].
  split; [by apply list_elem_of_In | by apply String.eqb_eq].
Qed.

(** What a resolved service selection says about the state. *)
Lemma getActiveEntityData_service (a : Arrangement.t)
    (selected : option SelectedEntity.t) (svc : ExternalService.t)
    (label : string) (details : list string) :
  getActiveEntityData a selected = Some (ServiceData svc label details) →
  ∃ sel,
    selected = Some sel
    ∧ SelectedEntity.type sel ≠ EntityType.CONTAINER
    ∧ List.find (fun s => String.eqb (ExternalService.id s) (SelectedEntity.id sel))
                (Arrangement.services a) = Some svc
    ∧ ExternalService.id svc = SelectedEntity.id sel
    ∧ label = "External Service"
    ∧ details = ExternalService.contractMetrics svc.
Proof.
  unfold getActiveEntityData. destruct selected as [sel|]; [|done].
  destruct (bool_decide _) eqn:B; [done|]. apply bool_decide_eq_false in B.
  destruct (List.find _ _) as [s|] eqn:F; [|done].
  intros [= -> <- <-]. exists sel. repeat split; try done.
  apply find_some in F as [_ F]. by apply String.eqb_eq.
Qed.

(** X12. Toggling never leaves the inspector on a removed service.  When the
    selection shows a service of the active arrangement, after a toggle either
    that service was the one toggled and the selection is cleared, or the
    inspector still shows the same service. *)
Theorem handleToggleService_selection (catalog : list ExternalService.t)
    (serviceId : string) (st : AppState) (a : Arrangement.t)
    (svc : ExternalService.t) (label : string) (details : list string) :
  activeArrangement st = Some a →
  getActiveEntityData a (selectedEntity st) = Some (ServiceData svc label details) →
  ∃ a',
    activeArrangement (handleToggleService catalog serviceId st) = Some a'
    ∧ ((ExternalService.id svc = serviceId
        ∧ selectedEntity (handleToggleService catalog serviceId st) = None)
       ∨ (ExternalService.id svc ≠ serviceId
          ∧ getActiveEntityData a'
              (selectedEntity (handleToggleService catalog serviceId st))
            = Some (ServiceData svc label details))).
Proof.
  intros Ha Hd.
  destruct (getActiveEntityData_service _ _ _ _ _ Hd)
    as (sel & Hsel & Hty & Hfind & Hid & -> & ->).
  destruct (activeArrangement_some _ _ Ha) as [Hin Haid].
  exists (toggleServiceIn catalog (activeArrangementId st) serviceId a).
  split; [by rewrite activeArrangement_toggle, Ha|].
  assert (svc ∈ Arrangement.services a) as Hsvc.
  { apply find_some in Hfind as [H _]. by apply list_elem_of_In. }
  destruct (decide (ExternalService.id svc = serviceId)) as [E|E].
  - left. split; [done|]. simpl.
    assert (toggleDeselects st serviceId = true) as ->; [|done].
    unfold toggleDeselects. rewrite Hsel. apply andb_true_iff. split.
    + apply existsb_exists. exists a. split; [by apply list_elem_of_In|].
      apply andb_true_iff. split; [by apply String.eqb_eq|].
      apply bool_decide_eq_true.
      destruct (find_id_some serviceId (Arrangement.services a)) as [s' ->];
        [by exists svc | done].
    + apply String.eqb_eq. congruence.
  - right. split; [done|]. simpl.
    assert (toggleDeselects st serviceId = false) as ->.
    { unfold toggleDeselects. rewrite Hsel. apply andb_false_iff. right.
      apply String.eqb_neq. congruence. }
    unfold getActiveEntityData. rewrite Hsel.
    rewrite bool_decide_eq_false_2 by done.
    assert (List.find
              (fun s => String.eqb (ExternalService.id s) (SelectedEntity.id sel))
              (Arrangement.services
                 (toggleServiceIn catalog (activeArrangementId st) serviceId a))
            = Some svc) as ->; [|done].
    unfold toggleServiceIn. rewrite (proj2 (String.eqb_eq _ _) Haid). simpl.
    destruct (List.find _ (Arrangement.services a)) as [s0|] eqn:F0 in |- *.
    + simpl. rewrite find_filter_keeps; [done|].
      intros x Hx. apply String.eqb_eq in Hx. apply eqb_id_false. congruence.
    + destruct (List.find _ catalog); [|done]. simpl. by apply find_app_some.
Qed.

(** X13. The status button of the inspector acts on what the inspector
    shows: when the selection shows a service of the active arrangement,
    cycling the status of that service leaves the selection in place, and
    the inspector then shows a service with the same id, name, type, metrics
    and experimental flag whose status is the next one of the cycle
    VALIDATED, CONFLICT, UNCERTAIN. *)
Theorem handleCycleStatus_inspector (st : AppState) (a : Arrangement.t)
    (svc : ExternalService.t) (label : string) (details : list string) :
  activeArrangement st = Some a →
  getActiveEntityData a (selectedEntity st) = Some (ServiceData svc label details) →
  ∃ a' svc',
    activeArrangement (handleCycleStatus (ExternalService.id svc) st) = Some a'
    ∧ selectedEntity (handleCycleStatus (ExternalService.id svc) st)
      = selectedEntity st
    ∧ getActiveEntityData a'
        (selectedEntity (handleCycleStatus (ExternalService.id svc) st))
      = Some (ServiceData svc' label details)
    ∧ ExternalService.evaluationStatus svc'
      = match ExternalService.evaluationStatus svc with
        | ValidationStatus.VALIDATED => ValidationStatus.CONFLICT
        | ValidationStatus.CONFLICT => ValidationStatus.UNCERTAIN
        | ValidationStatus.UNCERTAIN => ValidationStatus.VALIDATED
        end
    ∧ ExternalService.id svc' = ExternalService.id svc
    ∧ ExternalService.name svc' = ExternalService.name svc
    ∧ ExternalService.type svc' = ExternalService.type svc
    ∧ ExternalService.contractMetrics svc' = ExternalService.contractMetrics svc
    ∧ ExternalService.isExperimental svc' = ExternalService.isExperimental svc.
Proof.
  intros Ha Hd.
  destruct (getActiveEntityData_service _ _ _ _ _ Hd)
    as (sel & Hsel & Hty & Hfind & Hid & -> & ->).
  destruct (activeArrangement_some _ _ Ha) as [Hin Haid].
  exists (cycleStatusIn (activeArrangementId st) (ExternalService.id svc) a),
         (cycleService (ExternalService.id svc) svc).
  split; [by rewrite activeArrangement_cycle, Ha|].
  split; [done|].
  split.
  - simpl. unfold getActiveEntityData. rewrite Hsel.
    rewrite bool_decide_eq_false_2 by done.
    rewrite cycleStatusIn_same by done. simpl.
    rewrite find_map_preserved by (intros x; by rewrite cycleService_id).
    rewrite Hfind. simpl. by rewrite cycleService_same.
  - rewrite cycleService_same by done. simpl.
    repeat split. by destruct (ExternalService.evaluationStatus svc).
Qed.

(** ** Comparison: further properties *)

Lemma filter_all {A} (f : A → bool) (l : list A) :
  (∀ a, a ∈ l → f a = true) → List.filter f l = l.
Proof.
  induction l as [|a l IH]; intros H; simpl; [done|].
  rewrite H by apply list_elem_of_here.
  rewrite IH; [done|]. intros x Hx. apply H. by apply list_elem_of_further.
Qed.

Lemma filter_none {A} (f : A → bool) (l : list A) :
  (∀ a, a ∈ l → f a = false) → List.filter f l = [].
Proof.
  induction l as [|a l IH]; intros H; simpl; [done|].
  rewrite H by apply list_elem_of_here.
  apply IH. intros x Hx. apply H. by apply list_elem_of_further.
Qed.

Lemma idSet_eq (l l' : list ExternalService.t) :
  (∀ id, id ∈ ExternalService.id <$> l ↔ id ∈ ExternalService.id <$> l') →
  (list_to_set (map ExternalService.id l) : gset string)
  = list_to_set (map ExternalService.id l').
Proof.
  intros H. apply set_eq. intros id. rewrite !elem_of_list_to_set. apply H.
Qed.

(** The diff of two arrangements holding the same service ids. *)
Lemma getServiceDiff_same_ids (A B : Arrangement.t) :
  (∀ id, id ∈ ExternalService.id <$> Arrangement.services A
         ↔ id ∈ ExternalService.id <$> Arrangement.services B) →
  ComparisonView.getServiceDiff A (Some B)
  = {| ComparisonView.uniqueA := [];
       ComparisonView.uniqueB := [];
       ComparisonView.common := Arrangement.services A |}.
Proof.
  intros H. unfold ComparisonView.getServiceDiff.
  rewrite (idSet_eq _ _ H). f_equal.
  - apply filter_none. intros s Hs. apply negb_false_iff, bool_decide_eq_true.
    rewrite elem_of_list_to_set. apply H. by apply list_elem_of_fmap_2.
  - apply filter_none. intros s Hs. apply negb_false_iff, bool_decide_eq_true.
    rewrite elem_of_list_to_set. by apply list_elem_of_fmap_2.
  - apply filter_all. intros s Hs. apply bool_decide_eq_true.
    rewrite elem_of_list_to_set. apply H. by apply list_elem_of_fmap_2.
Qed.

(** X14. A comparison looks at service ids only.  Two arrangements with the
    same set of service ids have no exclusive services, and all services of the
    first are common, whatever their statuses; an arrangement compared with
    itself is such a case. *)
Theorem compare_same_ids (A B : Arrangement.t) :
  (∀ id, id ∈ ExternalService.id <$> Arrangement.services A
         ↔ id ∈ ExternalService.id <$> Arrangement.services B) →
  ComparisonView.uniqueToA (ComparisonView.compare A (Some B)) = []
  ∧ ComparisonView.uniqueToB (ComparisonView.compare A (Some B)) = []
  ∧ ComparisonView.commonServices (ComparisonView.compare A (Some B))
    = Arrangement.services A
  ∧ ComparisonView.uniqueToA (ComparisonView.compare A (Some A)) = []
  ∧ ComparisonView.commonServices (ComparisonView.compare A (Some A))
    = Arrangement.services A.
Proof.
  intros H. unfold ComparisonView.compare.
  rewrite (getServiceDiff_same_ids A B H).
  rewrite (getServiceDiff_same_ids A A) by done. done.
Qed.

(** X15. Only the ids of the other side matter: replacing the second
    arrangement by one with the same set of service ids changes neither the
    services exclusive to the first nor the common ones. *)
Theorem compare_depends_on_ids (A B B' : Arrangement.t) :
  (∀ id, id ∈ ExternalService.id <$> Arrangement.services B
         ↔ id ∈ ExternalService.id <$> Arrangement.services B') →
  ComparisonView.uniqueToA (ComparisonView.compare A (Some B))
  = ComparisonView.uniqueToA (ComparisonView.compare A (Some B'))
  ∧ ComparisonView.commonServices (ComparisonView.compare A (Some B))
    = ComparisonView.commonServices (ComparisonView.compare A (Some B')).
Proof.
  intros H. unfold ComparisonView.compare, ComparisonView.getServiceDiff. simpl.
  by rewrite (idSet_eq _ _ H).
Qed.

(** X16. Swapping the two arrangements swaps the exclusive lists and the rule
    lists; the common list is then taken from the other side, and holds
    services with the same ids. *)
Theorem compare_swap (A B : Arrangement.t) :
  ComparisonView.uniqueToA (ComparisonView.compare B (Some A))
  = ComparisonView.uniqueToB (ComparisonView.compare A (Some B))
  ∧ ComparisonView.uniqueToB (ComparisonView.compare B (Some A))
    = ComparisonView.uniqueToA (ComparisonView.compare A (Some B))
  ∧ ComparisonView.evaluatedRulesA (ComparisonView.compare B (Some A))
    = ComparisonView.evaluatedRulesB (ComparisonView.compare A (Some B))
  ∧ (∀ s, s ∈ ComparisonView.commonServices (ComparisonView.compare B (Some A)) →
          s ∈ Arrangement.services B)
  ∧ (∀ id,
       id ∈ ExternalService.id
              <$> ComparisonView.commonServices (ComparisonView.compare A (Some B))
       ↔ id ∈ ExternalService.id
                <$> ComparisonView.commonServices
                      (ComparisonView.compare B (Some A))).
Proof.
  split; [done | split; [done | split; [done|]]].
  assert (∀ X Y id,
            id ∈ ExternalService.id
                   <$> ComparisonView.commonServices
                         (ComparisonView.compare X (Some Y))
            ↔ id ∈ ExternalService.id <$> Arrangement.services X
              ∧ id ∈ ExternalService.id <$> Arrangement.services Y) as Hc.
  { intros X Y id. simpl. rewrite list_elem_of_fmap. split.
    - intros (s & -> & Hs). apply elem_of_filter_bool in Hs as [Hs Hb].
      apply bool_decide_eq_true in Hb. rewrite elem_of_list_to_set in Hb.
      split; [by apply list_elem_of_fmap_2 | done].
    - intros [(s & -> & Hs)%list_elem_of_fmap HY]. exists s. split; [done|].
      apply elem_of_filter_bool. split; [done|]. apply bool_decide_eq_true.
      by rewrite elem_of_list_to_set. }
  split.
  - intros s Hs. simpl in Hs. by apply elem_of_filter_bool in Hs as [Hs _].
  - intros id. rewrite !Hc. tauto.
Qed.

(** X17. The selector of the comparison never offers the arrangement being
    compared: its entries are the arrangements with another id, in order; a
    choice among them resolves to an arrangement with the chosen id, and
    without a choice there is no second arrangement. *)
Theorem selectOptions_spec (allArrangements : list Arrangement.t)
    (arrangementA : Arrangement.t) :
  (∀ b, b ∈ selectOptions allArrangements arrangementA
        ↔ b ∈ allArrangements ∧ Arrangement.id b ≠ Arrangement.id arrangementA)
  ∧ selectOptions allArrangements arrangementA `sublist_of` allArrangements
  ∧ (∀ b, b ∈ selectOptions allArrangements arrangementA →
          ∃ b', arrangementB allArrangements (Some (Arrangement.id b)) = Some b'
                ∧ b' ∈ allArrangements
                ∧ Arrangement.id b' = Arrangement.id b
                ∧ Arrangement.id b' ≠ Arrangement.id arrangementA)
  ∧ arrangementB allArrangements None = None
  ∧ (∀ compareId,
       (∀ a, a ∈ allArrangements → Arrangement.id a ≠ compareId) →
       arrangementB allArrangements (Some compareId) = None).
Proof.
  assert (∀ b, b ∈ selectOptions allArrangements arrangementA
               ↔ b ∈ allArrangements
                 ∧ Arrangement.id b ≠ Arrangement.id arrangementA) as Hopt.
  { intros b. unfold selectOptions.
    by rewrite elem_of_filter_bool, negb_true_iff, String.eqb_neq. }
  split; [exact Hopt | split; [apply filter_sublist | split; [|split]]].
  - intros b [Hb Hne]%Hopt. simpl.
    destruct (List.find _ allArrangements) as [b'|] eqn:F.
    + apply find_some in F as [Hin Hid]. apply String.eqb_eq in Hid.
      exists b'. split; [done|]. split; [by apply list_elem_of_In|].
      split; [done | congruence].
    + pose proof (proj1 (find_none _ _) F b Hb) as Hf. simpl in Hf.
      by rewrite String.eqb_refl in Hf.
  - done.
  - intros compareId H. simpl. apply find_none. intros a Ha.
    apply String.eqb_neq. by apply H.
Qed.

(** ** Fork, evaluation and comparison *)

(** X18. A fork starts where its source stands: right after [handleFork]
    the new arrangement has the evaluated rules of the source, verdict for
    verdict, and compared with the source it shows no exclusive service on
    either side. *)
Theorem handleFork_same_evidence (now1 now2 now3 : N) (st : AppState)
    (source : Arrangement.t) :
  activeArrangement st = Some source →
  ∃ fork st',
    handleFork now1 now2 now3 st = Some st'
    ∧ arrangements st' = arrangements st ++ [fork]
    ∧ getEvaluatedRules fork = getEvaluatedRules source
    ∧ ComparisonView.uniqueToA (ComparisonView.compare source (Some fork)) = []
    ∧ ComparisonView.uniqueToB (ComparisonView.compare source (Some fork)) = []
    ∧ ComparisonView.commonServices (ComparisonView.compare source (Some fork))
      = Arrangement.services source
    ∧ ComparisonView.evaluatedRulesB (ComparisonView.compare source (Some fork))
      = ComparisonView.evaluatedRulesA (ComparisonView.compare source (Some fork)).
Proof.
  intros Hsrc. unfold handleFork. rewrite Hsrc.
  match goal with
  | |- ∃ fork st', Some (mkAppState (_ ++ [?a]) _ _) = Some st' ∧ _ =>
      set (fork := a)
  end.
  exists fork. eexists. split; [reflexivity|]. split; [reflexivity|].
  assert (Arrangement.services fork = Arrangement.services source) as Hs
    by apply map_spreadService.
  assert (ContainerVersion.activeRules (Arrangement.container fork)
          = ContainerVersion.activeRules (Arrangement.container source)) as Hr
    by reflexivity.
  split; [unfold getEvaluatedRules; by rewrite Hs, Hr|].
  unfold ComparisonView.compare.
  rewrite getServiceDiff_same_ids by (by rewrite Hs).
  cbn [ComparisonView.uniqueToA ComparisonView.uniqueToB
       ComparisonView.commonServices ComparisonView.evaluatedRulesA
       ComparisonView.evaluatedRulesB ComparisonView.uniqueA
       ComparisonView.uniqueB ComparisonView.common].
  do 3 (split; [reflexivity|]).
  unfold ComparisonView.rulesA, ComparisonView.rulesB. by rewrite Hs, Hr.
Qed.

(** ** Reachable states *)

Lemma activeArrangement_setActive (st : AppState) (arr : Arrangement.t) :
  arr ∈ arrangements st →
  is_Some (activeArrangement (setActiveArrangementId (Arrangement.id arr) st)).
Proof.
  intros Hin. unfold activeArrangement; simpl.
  destruct (List.find _ (arrangements st)) as [a|] eqn:F; [by exists a|].
  pose proof (proj1 (find_none _ _) F arr Hin) as Hf. simpl in Hf.
  by rewrite String.eqb_refl in Hf.
Qed.

Lemma activeArrangement_fork (now1 now2 now3 : N) (st st' : AppState) :
  handleFork now1 now2 now3 st = Some st' → is_Some (activeArrangement st').
Proof.
  unfold handleFork. destruct (activeArrangement st) as [src|]; [|done].
  intros [= <-]. unfold activeArrangement; simpl.
  destruct (List.find _ (arrangements st ++ _)) as [a|] eqn:F; [by exists a|].
  match type of F with
  | List.find _ (_ ++ [?fork]) = None =>
      pose proof (proj1 (find_none _ _) F fork) as Hf
  end.
  simpl in Hf. rewrite String.eqb_refl in Hf.
  discriminate Hf. apply elem_of_app. right. apply list_elem_of_here.
Qed.

(** X19. What holds in every state the interface can reach.  Starting from
    the seed state, whatever the sequence of forks, toggles, hypothesis
    edits, status cycles, sidebar selections and node clicks: the active id
    names an arrangement of the collection, so that [handleFork] succeeds; no
    arrangement holds two services with the same id; and the collection only
    grows. *)
Theorem reachable_invariant (MOCK_SERVICES : list ExternalService.t)
    (now1 now2 : N) (st : AppState) :
  rtc (step MOCK_SERVICES) (Constants.initialState now1 now2) st →
  is_Some (activeArrangement st)
  ∧ (∀ t1 t2 t3, is_Some (handleFork t1 t2 t3 st))
  ∧ Forall UniqueServiceIds (arrangements st)
  ∧ 2 ≤ List.length (arrangements st).
Proof.
  intros Hreach.
  assert (is_Some (activeArrangement st)
          ∧ Forall UniqueServiceIds (arrangements st)
          ∧ 2 ≤ List.length (arrangements st)) as (Hact & Huniq & Hlen).
  { revert st Hreach.
    apply (rtc_ind_r (fun st => is_Some (activeArrangement st)
                                ∧ Forall UniqueServiceIds (arrangements st)
                                ∧ 2 ≤ List.length (arrangements st))).
    - split; [by eexists|].
      split; [apply seed_service_ids_unique | simpl; lia].
    - intros mid st _ Hstep (Hact & Huniq & Hlen).
      destruct (handlers_keep_service_ids_unique mid Huniq)
        as (Htog & Hcyc & Hupd & Hfork).
      destruct Hstep as [t1 t2 t3 mid st' Hf|svc mid _|text mid|a svc l d mid _ _
                        |arr mid Harr|a d mid _ _].
      + split; [by eapply activeArrangement_fork|]. split; [by eapply Hfork|].
        unfold handleFork in Hf. destruct (activeArrangement mid); [|done].
        injection Hf as <-. simpl. rewrite length_app. lia.
      + split; [|split; [apply Htog | by simpl; rewrite length_map]].
        rewrite activeArrangement_toggle. by apply fmap_is_Some.
      + split; [|split; [apply Hupd | by simpl; rewrite length_map]].
        rewrite activeArrangement_update. by apply fmap_is_Some.
      + split; [|split; [apply Hcyc | by simpl; rewrite length_map]].
        rewrite activeArrangement_cycle. by apply fmap_is_Some.
      + split; [by apply activeArrangement_setActive | done].
      + done. }
  split; [done | split; [|done]].
  intros t1 t2 t3. unfold handleFork. destruct Hact as [a ->]. by eexists.
Qed.

(** ** Graph data *)

Lemma prepareData_fold (arrangement : Arrangement.t)
    (services : list ExternalService.t)
    (nodes : list GraphCanvas.GraphNode) (links : list GraphCanvas.GraphLink) :
  fold_left
    (fun '(nodes, links) svc =>
       (nodes ++ [GraphCanvas.serviceNode svc],
        links ++ [GraphCanvas.serviceLink arrangement svc]))
    services (nodes, links)
  = (nodes ++ (GraphCanvas.serviceNode <$> services),
     links ++ (GraphCanvas.serviceLink arrangement <$> services)).
Proof.
  revert nodes links. induction services as [|s l IH]; intros nodes links; simpl.
  - by rewrite !app_nil_r.
  - rewrite IH. csimpl. by rewrite <- !app_assoc.
Qed.

Lemma prepareData_eq (arrangement : Arrangement.t) :
  GraphCanvas.prepareData arrangement
  = (GraphCanvas.containerNode arrangement
       :: (GraphCanvas.serviceNode <$> Arrangement.services arrangement),
     GraphCanvas.serviceLink arrangement <$> Arrangement.services arrangement).
Proof. unfold GraphCanvas.prepareData. by rewrite prepareData_fold. Qed.

(** X20. The graph of an arrangement is a star.  There is one node for the
    container, first, then one node per service in the order of the services,
    and one link per service; the link of the service at position [j] goes
    from the container node to the node at position [j + 1], which carries the
    id and the name of that service, and has the evaluation status of that
    service. *)
Theorem prepareData_star (arrangement : Arrangement.t) :
  let nodes := (GraphCanvas.prepareData arrangement).1 in
  let links := (GraphCanvas.prepareData arrangement).2 in
  List.length nodes = S (List.length (Arrangement.services arrangement))
  ∧ List.length links = List.length (Arrangement.services arrangement)
  ∧ (∃ root, nodes !! 0%nat = Some root
             ∧ GraphCanvas.type root = EntityType.CONTAINER
             ∧ GraphCanvas.id root
               = ContainerVersion.id (Arrangement.container arrangement)
             ∧ ∀ link, link ∈ links → GraphCanvas.source link = GraphCanvas.id root)
  ∧ (∀ j svc,
       Arrangement.services arrangement !! j = Some svc →
       ∃ node link,
         nodes !! S j = Some node
         ∧ links !! j = Some link
         ∧ GraphCanvas.type node = EntityType.SERVICE
         ∧ GraphCanvas.id node = ExternalService.id svc
         ∧ GraphCanvas.label node = ExternalService.name svc
         ∧ GraphCanvas.target link = GraphCanvas.id node
         ∧ GraphCanvas.status link = ExternalService.evaluationStatus svc).
Proof.
  rewrite prepareData_eq. simpl. split; [by rewrite length_fmap|].
  split; [by rewrite length_fmap|]. split.
  - eexists. split; [reflexivity|]. split; [done|]. split; [done|].
    intros link (svc & -> & _)%list_elem_of_fmap. done.
  - intros j svc Hj. exists (GraphCanvas.serviceNode svc),
      (GraphCanvas.serviceLink arrangement svc).
    rewrite !list_lookup_fmap, Hj. simpl. repeat split; try done.
    + unfold GraphCanvas.serviceNode. by repeat case_bool_decide.
    + unfold GraphCanvas.serviceNode. by repeat case_bool_decide.
    + unfold GraphCanvas.serviceNode. by repeat case_bool_decide.
    + unfold GraphCanvas.serviceNode. by repeat case_bool_decide.
Qed.

(** X21. The marks drawn on a node.  The container node carries its version
    label and nothing else.  A service node carries EXP when the service is
    experimental, then the name of the service, then a question mark exactly
    when the service is UNCERTAIN.  The exclamation mark meant for conflicts
    is never drawn: it is tested against the conflict colour, and the stroke
    of a service in CONFLICT has another colour. *)
Theorem nodeTexts_spec (arrangement : Arrangement.t) (svc : ExternalService.t) :
  GraphCanvas.nodeTexts (GraphCanvas.containerNode arrangement)
  = [ContainerVersion.versionLabel (Arrangement.container arrangement)]
  ∧ GraphCanvas.nodeTexts (GraphCanvas.serviceNode svc)
    = (if ExternalService.isExperimental svc then ["EXP"] else [])
      ++ [ExternalService.name svc]
      ++ (if bool_decide
               (ExternalService.evaluationStatus svc = ValidationStatus.UNCERTAIN)
          then ["?"] else [])
  ∧ GraphCanvas.strokeColor (GraphCanvas.serviceNode svc) ≠ COLORS.conflict
  ∧ (GraphCanvas.strokeDash (GraphCanvas.serviceNode svc) ≠ "none"
     ↔ ExternalService.evaluationStatus svc = ValidationStatus.UNCERTAIN).
Proof.
  split; [done|].
  destruct svc as [i n t m e v]. unfold GraphCanvas.serviceNode; simpl.
  destruct v, e; vm_compute; (split; [reflexivity|]);
    (split; [discriminate|]); split; intros H; try done; by destruct H.
Qed.

(** X22. Every node of the graph can be inspected: after a click on a node of
    the graph of the active arrangement, the inspector shows the container of
    that arrangement with its evaluated rules, for the container node, and a
    service of that arrangement with the id of the node, for a service
    node. *)
Theorem clickNode_inspector (st : AppState) (a : Arrangement.t)
    (d : GraphCanvas.GraphNode) :
  activeArrangement st = Some a →
  d ∈ (GraphCanvas.prepareData a).1 →
  activeArrangement (GraphCanvas.clickNode d st) = Some a
  ∧ ((GraphCanvas.type d = EntityType.CONTAINER
      ∧ getActiveEntityData a (selectedEntity (GraphCanvas.clickNode d st))
        = Some (ContainerData (Arrangement.container a) "Container Version"
                  (getEvaluatedRules a)))
     ∨ (GraphCanvas.type d = EntityType.SERVICE
        ∧ ∃ svc,
            getActiveEntityData a (selectedEntity (GraphCanvas.clickNode d st))
            = Some (ServiceData svc "External Service"
                      (ExternalService.contractMetrics svc))
            ∧ svc ∈ Arrangement.services a
            ∧ ExternalService.id svc = GraphCanvas.id d)).
Proof.
  intros Ha Hd. split; [done|]. rewrite prepareData_eq in Hd. simpl in Hd.
  apply elem_of_cons in Hd as [-> | Hd].
  - left. done.
  - right. apply list_elem_of_fmap in Hd as (s & -> & Hs).
    assert (GraphCanvas.type (GraphCanvas.serviceNode s) = EntityType.SERVICE
            ∧ GraphCanvas.id (GraphCanvas.serviceNode s) = ExternalService.id s)
      as [Hty Hid].
    { unfold GraphCanvas.serviceNode. by repeat case_bool_decide. }
    split; [done|]. simpl. rewrite Hty, Hid. simpl.
    destruct (find_id_some (ExternalService.id s) (Arrangement.services a))
      as [svc Hf]; [by exists s|].
    exists svc. rewrite Hf. split; [done|].
    apply find_some in Hf as [Hin Heq]. split; [by apply list_elem_of_In|].
    by apply String.eqb_eq.
Qed.

(** ** Edits to different services *)

Lemma find_cycleStatusIn (activeId serviceId otherId : string)
    (arr : Arrangement.t) :
  List.find (fun s => String.eqb (ExternalService.id s) otherId)
            (Arrangement.services (cycleStatusIn activeId serviceId arr))
  = cycleService (if String.eqb (Arrangement.id arr) activeId
                  then serviceId else "") <$>
    List.find (fun s => String.eqb (ExternalService.id s) otherId)
              (Arrangement.services arr)
  ∨ List.find (fun s => String.eqb (ExternalService.id s) otherId)
              (Arrangement.services (cycleStatusIn activeId serviceId arr))
    = List.find (fun s => String.eqb (ExternalService.id s) otherId)
                (Arrangement.services arr).
Proof.
  unfold cycleStatusIn. destruct (String.eqb _ activeId); simpl; [left | by right].
  apply find_map_preserved. intros s. by rewrite cycleService_id.
Qed.

Lemma toggleDeselects_cycle (serviceId otherId : string) (st : AppState) :
  toggleDeselects (handleCycleStatus serviceId st) otherId
  = toggleDeselects st otherId.
Proof.
  unfold toggleDeselects; simpl. f_equal.
  induction (arrangements st) as [|a l IH]; simpl; [done|].
  rewrite IH, cycleStatusIn_id. do 2 f_equal.
  apply bool_decide_ext.
  destruct (find_cycleStatusIn (activeArrangementId st) serviceId otherId a)
    as [-> | ->]; [|done].
  by rewrite fmap_is_Some.
Qed.

Lemma cycleStatusIn_toggleServiceIn (catalog : list ExternalService.t)
    (activeId serviceId otherId : string) (arr : Arrangement.t) :
  serviceId ≠ otherId →
  cycleStatusIn activeId serviceId (toggleServiceIn catalog activeId otherId arr)
  = toggleServiceIn catalog activeId otherId (cycleStatusIn activeId serviceId arr).
Proof.
  intros Hne. destruct (decide (Arrangement.id arr = activeId)) as [E|E].
  - rewrite (cycleStatusIn_same _ _ arr E).
    unfold toggleServiceIn. simpl. rewrite (proj2 (String.eqb_eq _ _) E). simpl.
    rewrite find_map_preserved by (intros s; by rewrite cycleService_id).
    destruct (List.find _ (Arrangement.services arr)) as [s0|]; simpl.
    + rewrite cycleStatusIn_same by done. simpl. f_equal.
      symmetry. apply filter_map_commute. intros s. by rewrite cycleService_id.
    + destruct (List.find _ catalog) as [t|] eqn:Et.
      * rewrite cycleStatusIn_same by done. simpl. f_equal.
        rewrite map_app. simpl. f_equal. f_equal.
        apply cycleService_other. rewrite spreadService_eq.
        apply find_some in Et as [_ Et]. apply String.eqb_eq in Et. congruence.
      * by rewrite cycleStatusIn_same.
  - rewrite (cycleStatusIn_other _ _ arr E).
    rewrite !toggleServiceIn_other by done. by rewrite cycleStatusIn_other.
Qed.

(** X23. Edits to different services do not interfere: cycling the status of
    one service and toggling another one give the same state in either
    order. *)
Theorem handleCycleStatus_handleToggleService_commute
    (catalog : list ExternalService.t) (serviceId otherId : string)
    (st : AppState) :
  serviceId ≠ otherId →
  handleCycleStatus serviceId (handleToggleService catalog otherId st)
  = handleToggleService catalog otherId (handleCycleStatus serviceId st).
Proof.
  intros Hne. unfold handleToggleService at 2.
  rewrite toggleDeselects_cycle.
  unfold handleCycleStatus, handleToggleService; simpl. f_equal.
  rewrite !map_map. apply map_ext. intros a.
  by apply cycleStatusIn_toggleServiceIn.
Qed.

End Generic.

(** ** Evaluations on the seed data

    The texts of the seed data are ASCII, so the engine is evaluated on them
    with [Js.asciiOnly]. *)

#[local] Existing Instance Js.asciiOnly.

Example evaluateRule_seed_rules_in_catalog :
  Samples.r_cost ∈ Constants.MIGRATION_DRIVERS
  ∧ Samples.r_dr ∈ Constants.MIGRATION_DRIVERS.
Proof. split; apply list_elem_of_In; simpl; tauto. Qed.

Lemma evaluateRule_precedence_witness :
  EvaluatedRule.status (evaluateRule Samples.r_dr Samples.mixedEvidence)
  = RuleStatus.VIOLATED.
Proof.
  refine (proj1 (evaluateRule_precedence Samples.r_dr Samples.mixedEvidence _) _).
  - exists Samples.backup. split.
    + apply list_elem_of_here.
    + apply claimsMetric_Relevant. reflexivity.
  - exists (withStatus Samples.cloudDR ValidationStatus.CONFLICT).
    split; [|split].
    + do 2 apply list_elem_of_further. apply list_elem_of_here.
    + apply claimsMetric_Relevant. reflexivity.
    + reflexivity.
Defined.

Lemma evaluateRule_no_evidence_witness :
  EvaluatedRule.status (evaluateRule Samples.r_dr [Samples.analytics])
  = RuleStatus.VIOLATED
  ∧ EvaluatedRule.status (evaluateRule Samples.r_cost [Samples.analytics])
    = RuleStatus.NOT_EVALUABLE.
Proof.
  split.
  - refine (proj1 (evaluateRule_no_evidence Samples.r_dr [Samples.analytics] _)).
    intros s Hs. apply list_elem_of_singleton in Hs as ->.
    apply claimsMetric_not_Relevant. reflexivity.
  - refine (proj1 (evaluateRule_no_evidence Samples.r_cost [Samples.analytics] _)).
    intros s Hs. apply list_elem_of_singleton in Hs as ->.
    apply claimsMetric_not_Relevant. reflexivity.
Defined.


(** The matcher is searched inside the metric: any position, any letter case,
    across word boundaries. *)
Example claimsMetric_substring :
  Js.includes (Js.toLowerCase "Cost Reduced 45%") (Js.toLowerCase "cost") = true
  ∧ Js.includes (Js.toLowerCase "HIGH OPEX COST") (Js.toLowerCase "cost") = true
  ∧ Js.includes (Js.toLowerCase "Hundreds of nodes") (Js.toLowerCase "DR") = true
  ∧ Js.includes (Js.toLowerCase "DR") (Js.toLowerCase "DR RTO 48h") = false.
Proof. repeat split. Qed.

Lemma evaluateRule_empty_matcher_witness :
  EvaluatedRule.matchingServices
    (evaluateRule (Rule.mk "r_any" "Any capability" Severity.WARNING "")
       [ Samples.backup;
         ExternalService.mk "svc-bare" "Bare service" ServiceType.API []
           false ValidationStatus.VALIDATED ])
  = [ "Tape/Local Backup System" ].
Proof.
  exact (proj2 (proj2 (proj1
    (evaluateRule_empty_matcher
       (Rule.mk "r_any" "Any capability" Severity.WARNING "") _) eq_refl))).
Defined.

(** The scenario of the specification: toggling a present service removes it,
    toggling again appends the catalog entry. *)
Example handleToggleService_twice :
  let st1 := handleToggleService Constants.MOCK_SERVICES "svc-onprem-backup"
               Samples.seed in
  let st2 := handleToggleService Constants.MOCK_SERVICES "svc-onprem-backup" st1 in
  (Arrangement.services <$> arrangements st1 !! 0%nat)
  = Some [Constants.mockService 0; Constants.mockService 2]
  ∧ (Arrangement.services <$> arrangements st2 !! 0%nat)
    = Some [Constants.mockService 0; Constants.mockService 2;
            Constants.mockService 1]
  ∧ arrangements st2 !! 1%nat = Some Samples.cloud.
Proof. repeat split. Qed.

Lemma compare_spec_witness :
  ExternalService.id (Constants.mockService 0)
  ≠ ExternalService.id (Constants.mockService 3).
Proof.
  refine (proj1 (proj2 (proj2 (proj2
    (compare_spec Samples.legacy (Some Samples.cloud)))))
    (Constants.mockService 0) (Constants.mockService 3) _ _).
  - vm_compute. apply list_elem_of_here.
  - vm_compute. apply list_elem_of_here.
Defined.

(** C9, refuted as stated: without a second arrangement the rule list of the
    first arrangement is not empty. *)
Lemma compare_unset_keeps_rules_of_A :
  ComparisonView.uniqueToA (ComparisonView.compare Samples.legacy None) = []
  ∧ ComparisonView.uniqueToB (ComparisonView.compare Samples.legacy None) = []
  ∧ ComparisonView.commonServices (ComparisonView.compare Samples.legacy None) = []
  ∧ ComparisonView.evaluatedRulesB (ComparisonView.compare Samples.legacy None) = []
  ∧ EvaluatedRule.id
      <$> ComparisonView.evaluatedRulesA (ComparisonView.compare Samples.legacy None)
    = [ "r_cost"; "r_dr"; "r_comp"; "r_valid" ]
  ∧ ComparisonView.evaluatedRulesA (ComparisonView.compare Samples.legacy None) ≠ [].
Proof. repeat split. discriminate. Qed.

Lemma evaluateRule_verdict_iff_witness :
  EvaluatedRule.status (evaluateRule Samples.r_dr [Samples.backup; Samples.cloudDR])
  = RuleStatus.SATISFIED.
Proof.
  apply (proj1 (evaluateRule_verdict_iff Samples.r_dr
                  [Samples.backup; Samples.cloudDR])).
  split.
  - exists Samples.backup. split; [apply list_elem_of_here|].
    apply claimsMetric_Relevant. reflexivity.
  - intros s Hs _. apply list_elem_of_In in Hs. simpl in Hs.
    destruct Hs as [<- | [<- | []]]; reflexivity.
Defined.

Lemma evaluateRule_Permutation_witness :
  EvaluatedRule.status (evaluateRule Samples.r_dr Samples.mixedEvidence)
  = EvaluatedRule.status (evaluateRule Samples.r_dr (reverse Samples.mixedEvidence)).
Proof.
  apply (evaluateRule_Permutation Samples.r_dr Samples.mixedEvidence
           (reverse Samples.mixedEvidence)).
  symmetry. apply reverse_Permutation.
Defined.

Lemma evaluateRule_irrelevant_witness :
  evaluateRule Samples.r_dr [Samples.backup; Samples.analytics; Samples.cloudDR]
  = evaluateRule Samples.r_dr [Samples.backup; Samples.cloudDR].
Proof.
  apply (evaluateRule_irrelevant Samples.r_dr [Samples.backup] [Samples.cloudDR]
           Samples.analytics).
  apply claimsMetric_not_Relevant. reflexivity.
Defined.

Lemma evaluateRule_matcher_antitone_witness :
  EvaluatedRule.matchingServices
    (evaluateRule (Rule.mk "r_rto" "Recovery time" Severity.WARNING "dr rto 30")
       Samples.mixedEvidence)
  `sublist_of`
  EvaluatedRule.matchingServices (evaluateRule Samples.r_dr Samples.mixedEvidence).
Proof.
  apply (evaluateRule_matcher_antitone Samples.r_dr
           (Rule.mk "r_rto" "Recovery time" Severity.WARNING "dr rto 30")
           Samples.mixedEvidence).
  apply includes_spec. reflexivity.
Defined.

Lemma handleCycleStatus_keeps_matchingServices_witness :
  ∃ arr',
    arrangements (handleCycleStatus "svc-onprem-backup" Samples.seed) !! 0%nat
    = Some arr'
    ∧ (EvaluatedRule.matchingServices <$> getEvaluatedRules arr')
      = (EvaluatedRule.matchingServices <$> getEvaluatedRules Samples.legacy).
Proof.
  destruct (handleCycleStatus_keeps_matchingServices "svc-onprem-backup"
              Samples.seed 0 Samples.legacy eq_refl) as (arr' & H1 & H2 & _).
  by exists arr'.
Defined.

Lemma handleCycleStatus_violates_witness :
  ∃ arr',
    arrangements (handleCycleStatus "svc-onprem-backup" Samples.seed) !! 0%nat
    = Some arr'
    ∧ EvaluatedRule.status (evaluateRule Samples.r_dr (Arrangement.services arr'))
      = RuleStatus.VIOLATED.
Proof.
  apply (handleCycleStatus_violates "svc-onprem-backup" Samples.seed 0
           Samples.legacy Samples.backup Samples.r_dr).
  - reflexivity.
  - reflexivity.
  - apply list_elem_of_further, list_elem_of_here.
  - reflexivity.
  - reflexivity.
  - apply claimsMetric_Relevant. reflexivity.
Defined.

Lemma handleUpdateHypothesis_spec_witness :
  ∃ arr',
    arrangements (handleUpdateHypothesis "Keep the tapes." Samples.seed) !! 0%nat
    = Some arr'
    ∧ ContainerVersion.hypothesis (Arrangement.container arr') = "Keep the tapes."
    ∧ getEvaluatedRules arr' = getEvaluatedRules Samples.legacy.
Proof.
  destruct (handleUpdateHypothesis_spec "Keep the tapes." Samples.seed 0
              Samples.legacy eq_refl)
    as (arr' & H1 & _ & H3 & _ & _ & _ & _ & _ & _ & _ & _ & H12).
  exists arr'. split; [exact H1|]. split; [exact (H3 eq_refl) | exact H12].
Defined.

Lemma handleToggleService_on_off_witness :
  arrangements
    (handleToggleService Constants.MOCK_SERVICES "cloud_backup_DR"
       (handleToggleService Constants.MOCK_SERVICES "cloud_backup_DR" Samples.seed))
  !! 0%nat = Some Samples.legacy.
Proof.
  apply (handleToggleService_on_off Constants.MOCK_SERVICES "cloud_backup_DR"
           Samples.seed 0 Samples.legacy eq_refl).
  intros s Hs. apply list_elem_of_In in Hs. simpl in Hs.
  destruct Hs as [<- | [<- | [<- | []]]]; discriminate.
Defined.

Lemma handleToggleService_off_on_witness :
  Arrangement.services
    <$> arrangements
          (handleToggleService Constants.MOCK_SERVICES "human_consistency_review"
             (handleToggleService Constants.MOCK_SERVICES "human_consistency_review"
                (setActiveArrangementId "arr-cloud" Samples.seed))) !! 1%nat
  = Some [ Constants.mockService 3; Constants.mockService 4;
           Constants.mockService 5; Constants.mockService 6 ].
Proof.
  rewrite (handleToggleService_off_on Constants.MOCK_SERVICES
             "human_consistency_review"
             (setActiveArrangementId "arr-cloud" Samples.seed) 1 Samples.cloud
             eq_refl eq_refl).
  - reflexivity.
  - exists (withStatus (Constants.mockService 6) ValidationStatus.CONFLICT).
    split; [|reflexivity].
    do 3 apply list_elem_of_further. apply list_elem_of_here.
Defined.

Lemma handleToggleService_flips_isActive_witness :
  ∃ arr',
    arrangements
      (handleToggleService Constants.MOCK_SERVICES
         (ExternalService.id Samples.cloudDR) Samples.seed) !! 0%nat
    = Some arr'
    ∧ isActive arr' Samples.cloudDR = negb (isActive Samples.legacy Samples.cloudDR).
Proof.
  apply (handleToggleService_flips_isActive Constants.MOCK_SERVICES
           Samples.cloudDR Samples.seed 0 Samples.legacy).
  - do 5 apply list_elem_of_further. apply list_elem_of_here.
  - reflexivity.
  - reflexivity.
Defined.

Lemma handleToggleService_selection_witness :
  ∃ a',
    activeArrangement
      (handleToggleService Constants.MOCK_SERVICES "svc-onprem-backup"
         (setSelectedEntity
            (Some (SelectedEntity.mk EntityType.SERVICE "svc-onprem-backup"))
            Samples.seed)) = Some a'
    ∧ selectedEntity
        (handleToggleService Constants.MOCK_SERVICES "svc-onprem-backup"
           (setSelectedEntity
              (Some (SelectedEntity.mk EntityType.SERVICE "svc-onprem-backup"))
              Samples.seed)) = None.
Proof.
  destruct (handleToggleService_selection Constants.MOCK_SERVICES
              "svc-onprem-backup"
              (setSelectedEntity
                 (Some (SelectedEntity.mk EntityType.SERVICE "svc-onprem-backup"))
                 Samples.seed)
              Samples.legacy Samples.backup "External Service"
              (ExternalService.contractMetrics Samples.backup)
              eq_refl eq_refl) as (a' & H1 & [[_ H2] | [H2 _]]).
  - by exists a'.
  - by destruct H2.
Defined.

Lemma handleCycleStatus_inspector_witness :
  ∃ a' svc',
    activeArrangement
      (handleCycleStatus "svc-onprem-backup"
         (setSelectedEntity
            (Some (SelectedEntity.mk EntityType.SERVICE "svc-onprem-backup"))
            Samples.seed)) = Some a'
    ∧ Some (SelectedEntity.mk EntityType.SERVICE "svc-onprem-backup")
      = Some (SelectedEntity.mk EntityType.SERVICE "svc-onprem-backup")
    ∧ getActiveEntityData a'
        (Some (SelectedEntity.mk EntityType.SERVICE "svc-onprem-backup"))
      = Some (ServiceData svc' "External Service"
                ["DR RTO 48h"; "Manual Restore Process"; "CapEx Heavy"])
    ∧ ExternalService.evaluationStatus svc' = ValidationStatus.CONFLICT
    ∧ ExternalService.id svc' = "svc-onprem-backup"
    ∧ ExternalService.name svc' = "Tape/Local Backup System"
    ∧ ExternalService.type svc' = ServiceType.DATABASE
    ∧ ExternalService.contractMetrics svc'
      = ["DR RTO 48h"; "Manual Restore Process"; "CapEx Heavy"]
    ∧ ExternalService.isExperimental svc' = false.
Proof.
  exact (handleCycleStatus_inspector
           (setSelectedEntity
              (Some (SelectedEntity.mk EntityType.SERVICE "svc-onprem-backup"))
              Samples.seed)
           Samples.legacy Samples.backup "External Service"
           (ExternalService.contractMetrics Samples.backup) eq_refl eq_refl).
Defined.

Lemma compare_same_ids_witness :
  ComparisonView.commonServices
    (ComparisonView.compare Samples.legacy
       (Some (cycleStatusIn "arr-legacy" "svc-onprem-db" Samples.legacy)))
  = Arrangement.services Samples.legacy.
Proof.
  apply (compare_same_ids Samples.legacy
           (cycleStatusIn "arr-legacy" "svc-onprem-db" Samples.legacy)).
  intros id. reflexivity.
Defined.

Lemma compare_depends_on_ids_witness :
  ComparisonView.uniqueToA
    (ComparisonView.compare Samples.legacy (Some Samples.cloud))
  = ComparisonView.uniqueToA
      (ComparisonView.compare Samples.legacy
         (Some (cycleStatusIn "arr-cloud" "cloud_backup_DR" Samples.cloud))).
Proof.
  apply (compare_depends_on_ids Samples.legacy Samples.cloud
           (cycleStatusIn "arr-cloud" "cloud_backup_DR" Samples.cloud)).
  intros id. reflexivity.
Defined.

Lemma selectOptions_spec_witness :
  ∃ b', arrangementB (arrangements Samples.seed) (Some "arr-cloud") = Some b'
        ∧ Arrangement.id b' ≠ Arrangement.id Samples.legacy.
Proof.
  destruct (proj1 (proj2 (proj2
              (selectOptions_spec (arrangements Samples.seed) Samples.legacy)))
              Samples.cloud) as (b' & H1 & _ & _ & H4).
  - vm_compute. apply list_elem_of_here.
  - by exists b'.
Defined.

Lemma handleFork_same_evidence_witness :
  ∃ fork st',
    handleFork Samples.tick Samples.tick Samples.tick Samples.seed = Some st'
    ∧ arrangements st' = arrangements Samples.seed ++ [fork]
    ∧ getEvaluatedRules fork = getEvaluatedRules Samples.legacy.
Proof.
  destruct (handleFork_same_evidence Samples.tick Samples.tick Samples.tick
              Samples.seed Samples.legacy eq_refl)
    as (fork & st' & H1 & H2 & H3 & _).
  by exists fork, st'.
Defined.

Lemma reachable_invariant_witness :
  is_Some
    (handleFork 3 4 5
       (handleUpdateHypothesis "Keep the tapes."
          (setActiveArrangementId "arr-cloud" Samples.seed))).
Proof.
  refine (proj1 (proj2 (reachable_invariant Constants.MOCK_SERVICES
                          Samples.tick Samples.tick _ _)) 3%N 4%N 5%N).
  eapply rtc_l; [apply (step_select_arrangement _ Samples.cloud)|].
  { apply list_elem_of_further, list_elem_of_here. }
  eapply rtc_l; [apply (step_update _ "Keep the tapes.")|].
  apply rtc_refl.
Defined.

Lemma prepareData_star_witness :
  ∃ node link,
    (GraphCanvas.prepareData Samples.legacy).1 !! 2%nat = Some node
    ∧ (GraphCanvas.prepareData Samples.legacy).2 !! 1%nat = Some link
    ∧ GraphCanvas.id node = "svc-onprem-backup"
    ∧ GraphCanvas.target link = GraphCanvas.id node.
Proof.
  destruct (proj2 (proj2 (proj2 (prepareData_star Samples.legacy)))
              1%nat Samples.backup eq_refl)
    as (node & link & H1 & H2 & _ & H4 & _ & H6 & _).
  exists node, link. by rewrite H4 in *.
Defined.

Lemma clickNode_inspector_witness :
  getActiveEntityData Samples.legacy
    (selectedEntity
       (GraphCanvas.clickNode (GraphCanvas.containerNode Samples.legacy)
          Samples.seed))
  = Some (ContainerData (Arrangement.container Samples.legacy) "Container Version"
            (getEvaluatedRules Samples.legacy)).
Proof.
  destruct (clickNode_inspector Samples.seed Samples.legacy
              (GraphCanvas.containerNode Samples.legacy) eq_refl)
    as [_ [[_ H] | [H _]]].
  - rewrite prepareData_eq. apply list_elem_of_here.
  - exact H.
  - discriminate H.
Defined.

Lemma handleCycleStatus_handleToggleService_commute_witness :
  handleCycleStatus "svc-onprem-db"
    (handleToggleService Constants.MOCK_SERVICES "cloud_backup_DR" Samples.seed)
  = handleToggleService Constants.MOCK_SERVICES "cloud_backup_DR"
      (handleCycleStatus "svc-onprem-db" Samples.seed).
Proof.
  apply (handleCycleStatus_handleToggleService_commute Constants.MOCK_SERVICES
           "svc-onprem-db" "cloud_backup_DR" Samples.seed).
  discriminate.
Defined.

Lemma handlers_arrangement_ids_witness :
  ∃ st',
    handleFork Samples.tick Samples.tick Samples.tick Samples.seed = Some st'
    ∧ NoDup (Arrangement.id <$> arrangements st').
Proof.
  eexists. split; [reflexivity|].
  refine (proj2 (proj2 (proj2 (proj2 (handlers_arrangement_ids Samples.seed)))
            Samples.tick Samples.tick Samples.tick _ eq_refl) _ _).
  - refine (bool_decide_unpack _ _). vm_compute. exact I.
  - refine (bool_decide_unpack _ _). vm_compute. exact I.
Defined.

(** ** Two forks on one clock reading

    [handleFork] makes the id of a fork from [Date.now()].  The state below
    is reached from the seed state by two clicks on the fork button that see
    the same reading. *)

(** C7. The id given to a fork is not always new: a fork taken from a fork
    at the clock reading at which that fork was made gets the id of its
    source, an id that the collection already has. *)
Lemma handleFork_id_collision :
  ∃ st1 st2 source fork,
    Samples.forkedOnce = Some st1
    ∧ activeArrangement st1 = Some source
    ∧ handleFork Samples.tick Samples.tick Samples.tick st1 = Some st2
    ∧ arrangements st2 = arrangements st1 ++ [fork]
    ∧ Arrangement.id fork = Arrangement.id source
    ∧ Arrangement.id fork ∈ map Arrangement.id (arrangements st1).
Proof.
  do 4 eexists. split; [reflexivity|]. split; [reflexivity|].
  split; [reflexivity|]. split; [reflexivity|]. split; [reflexivity|].
  apply list_elem_of_In. simpl. tauto.
Qed.

(** C4. A fork and its source are not always independent: when the fork
    gets the id of its source, cycling the status of a service in the fork
    changes the status of that service in the source as well. *)
Lemma fork_shares_status_on_id_collision :
  ∃ st1 st2 A A' A_after,
    Samples.forkedOnce = Some st1
    ∧ activeArrangement st1 = Some A
    ∧ handleFork Samples.tick Samples.tick Samples.tick st1 = Some st2
    ∧ arrangements st2 = arrangements st1 ++ [A']
    ∧ Arrangement.parentId A' = Some (Arrangement.id A)
    ∧ activeArrangementId st2 = Arrangement.id A'
    ∧ arrangements st2 !! 2%nat = Some A
    ∧ arrangements (handleCycleStatus "svc-onprem-db" st2) !! 2%nat
      = Some A_after
    ∧ ExternalService.evaluationStatus <$> Arrangement.services A
      = [ ValidationStatus.VALIDATED; ValidationStatus.VALIDATED;
          ValidationStatus.VALIDATED ]
    ∧ ExternalService.evaluationStatus <$> Arrangement.services A_after
      = [ ValidationStatus.CONFLICT; ValidationStatus.VALIDATED;
          ValidationStatus.VALIDATED ]
    ∧ A_after ≠ A.
Proof.
  do 5 eexists. do 9 (split; [vm_compute; reflexivity|]).
  split; [vm_compute; reflexivity|].
  intros E.
  apply (f_equal (fun a => ExternalService.evaluationStatus
                             <$> Arrangement.services a)) in E.
  vm_compute in E. discriminate E.
Qed.

(** C5. One click on the status button does not always affect one
    arrangement: after the two forks the last two arrangements have the
    active id, and cycling the status of the first service moves it from
    VALIDATED to CONFLICT in both. *)
Lemma handleCycleStatus_id_collision :
  ∃ st2,
    Samples.forkedTwice = Some st2
    ∧ Arrangement.id <$> arrangements st2
      = [ "arr-legacy"; "arr-cloud"; "arr-1700000000000"; "arr-1700000000000" ]
    ∧ activeArrangementId st2 = "arr-1700000000000"
    ∧ (λ a, ExternalService.evaluationStatus <$> Arrangement.services a)
        <$> arrangements st2
      = [ [ ValidationStatus.VALIDATED; ValidationStatus.VALIDATED;
            ValidationStatus.VALIDATED ];
          [ ValidationStatus.VALIDATED; ValidationStatus.VALIDATED;
            ValidationStatus.VALIDATED; ValidationStatus.CONFLICT ];
          [ ValidationStatus.VALIDATED; ValidationStatus.VALIDATED;
            ValidationStatus.VALIDATED ];
          [ ValidationStatus.VALIDATED; ValidationStatus.VALIDATED;
            ValidationStatus.VALIDATED ] ]
    ∧ (λ a, ExternalService.evaluationStatus <$> Arrangement.services a)
        <$> arrangements (handleCycleStatus "svc-onprem-db" st2)
      = [ [ ValidationStatus.VALIDATED; ValidationStatus.VALIDATED;
            ValidationStatus.VALIDATED ];
          [ ValidationStatus.VALIDATED; ValidationStatus.VALIDATED;
            ValidationStatus.VALIDATED; ValidationStatus.CONFLICT ];
          [ ValidationStatus.CONFLICT; ValidationStatus.VALIDATED;
            ValidationStatus.VALIDATED ];
          [ ValidationStatus.CONFLICT; ValidationStatus.VALIDATED;
            ValidationStatus.VALIDATED ] ].
Proof. eexists. repeat split; vm_compute; reflexivity. Qed.

(** C6. Toggling a service does not always leave the other arrangements as
    they were: after the two forks, toggling a service of the active
    arrangement removes it from the last two arrangements, and toggling a
    service of the catalog that the active arrangement lacks adds it to
    both. *)
Lemma handleToggleService_id_collision :
  ∃ st2,
    Samples.forkedTwice = Some st2
    ∧ Arrangement.id <$> arrangements st2
      = [ "arr-legacy"; "arr-cloud"; "arr-1700000000000"; "arr-1700000000000" ]
    ∧ activeArrangementId st2 = "arr-1700000000000"
    ∧ (λ a, ExternalService.id <$> Arrangement.services a) <$> arrangements st2
      = [ [ "svc-onprem-db"; "svc-onprem-backup"; "svc-onprem-analytics" ];
          [ "cloud_storage_HIPAA"; "cloud_analytics_platform"; "cloud_backup_DR";
            "human_consistency_review" ];
          [ "svc-onprem-db"; "svc-onprem-backup"; "svc-onprem-analytics" ];
          [ "svc-onprem-db"; "svc-onprem-backup"; "svc-onprem-analytics" ] ]
    ∧ (λ a, ExternalService.id <$> Arrangement.services a)
        <$> arrangements
              (handleToggleService Constants.MOCK_SERVICES "svc-onprem-db" st2)
      = [ [ "svc-onprem-db"; "svc-onprem-backup"; "svc-onprem-analytics" ];
          [ "cloud_storage_HIPAA"; "cloud_analytics_platform"; "cloud_backup_DR";
            "human_consistency_review" ];
          [ "svc-onprem-backup"; "svc-onprem-analytics" ];
          [ "svc-onprem-backup"; "svc-onprem-analytics" ] ]
    ∧ (λ a, ExternalService.id <$> Arrangement.services a)
        <$> arrangements
              (handleToggleService Constants.MOCK_SERVICES "cloud_backup_DR" st2)
      = [ [ "svc-onprem-db"; "svc-onprem-backup"; "svc-onprem-analytics" ];
          [ "cloud_storage_HIPAA"; "cloud_analytics_platform"; "cloud_backup_DR";
            "human_consistency_review" ];
          [ "svc-onprem-db"; "svc-onprem-backup"; "svc-onprem-analytics";
            "cloud_backup_DR" ];
          [ "svc-onprem-db"; "svc-onprem-backup"; "svc-onprem-analytics";
            "cloud_backup_DR" ] ].
Proof. eexists. repeat split; vm_compute; reflexivity. Qed.
